(** * bughub: pull issues from GitHub and Bugzilla and dump them as CSV

    A shallow embedding of [bughub.py] and the properties of its record
    normalisation, source-definition parser, pagination loop and CSV
    driver.

    Modelling conventions.
    - Python values that flow through the program (decoded JSON, filter
      values, record fields) are values of the type [json].
    - Text is a [string] of bytes; Python 2's distinction between [str]
      and [unicode] (and the implicit ASCII coercions between them) is
      not modelled, so [encode("utf8")] is the identity on text.
    - A Python [dict] is an association list with pairwise distinct keys,
      kept in insertion order.  CPython 2 iterates a dict in hash order;
      no theorem below depends on the order across distinct keys except
      where it says so.
    - Exceptions are values of [exn]; fallible code returns [result].
    - A generator is modelled by its [trace]: the items it yields and how
      it ends (normally, by raising, or by running out of fuel). *)

From Stdlib Require Import ZArith List Bool Arith Lia Permutation.
From Stdlib Require Import Strings.Ascii Strings.String Numbers.DecimalString.
Import ListNotations.
Open Scope list_scope.
Open Scope string_scope.

(** ** Exceptions and the error monad *)

Inductive exn : Type :=
| KeyError
| TypeError
| ValueError
| IndexError
| URLError.

Inductive result (A : Type) : Type :=
| Ok (a : A)
| Raise (e : exn).
Arguments Ok {A} a.
Arguments Raise {A} e.

Definition bind {A B : Type} (r : result A) (k : A -> result B) : result B :=
  match r with
  | Ok a => k a
  | Raise e => Raise e
  end.

Notation "x <- c ;; k" := (bind c (fun x => k))
  (at level 61, c at next level, right associativity).

Fixpoint mapM {A B : Type} (f : A -> result B) (l : list A) : result (list B) :=
  match l with
  | [] => Ok []
  | x :: xs => y <- f x ;; ys <- mapM f xs ;; Ok (y :: ys)
  end.

Fixpoint foldM {A S : Type} (f : S -> A -> result S) (l : list A) (s : S)
  : result S :=
  match l with
  | [] => Ok s
  | x :: xs => s' <- f s x ;; foldM f xs s'
  end.

(** ** Generators as traces *)

Inductive outcome : Type :=
| Done
| Raised (e : exn)
| OutOfFuel.

Definition trace (A : Type) : Type := (list A * outcome)%type.

(** [for x in items: yield f(x)], where the underlying generator ends
    with [out]: the first failing [f x] ends the loop. *)
Fixpoint for_each {A B : Type} (f : A -> result B) (items : list A)
  (out : outcome) : trace B :=
  match items with
  | [] => ([], out)
  | x :: xs =>
      match f x with
      | Raise e => ([], Raised e)
      | Ok y => let '(ys, o) := for_each f xs out in (y :: ys, o)
      end
  end.

(** [itertools.chain]: the next generator is only started when the one
    before it has ended normally. *)
Fixpoint chain {A : Type} (gens : list (trace A)) : trace A :=
  match gens with
  | [] => ([], Done)
  | (items, Done) :: rest =>
      let '(more, o) := chain rest in ((items ++ more)%list, o)
  | (items, o) :: _ => (items, o)
  end.

(** ** Text *)

Module Text.

Definition quote_char : ascii := ascii_of_nat 34.
Definition cr : ascii := ascii_of_nat 13.
Definition lf : ascii := ascii_of_nat 10.

Definition str1 (c : ascii) : string := String c EmptyString.

Fixpoint contains (c : ascii) (s : string) : bool :=
  match s with
  | EmptyString => false
  | String a s' => Ascii.eqb a c || contains c s'
  end.

Fixpoint count (c : ascii) (s : string) : nat :=
  match s with
  | EmptyString => 0
  | String a s' => (if Ascii.eqb a c then 1 else 0) + count c s'
  end.

(** [s.split(c)] for a one-character separator: always at least one
    part, one more than the occurrences of [c]. *)
Fixpoint split (c : ascii) (s : string) : list string :=
  match s with
  | EmptyString => [EmptyString]
  | String a s' =>
      if Ascii.eqb a c then EmptyString :: split c s'
      else match split c s' with
           | [] => [str1 a]
           | w :: ws => String a w :: ws
           end
  end.

(** [sep.join(parts)] *)
Fixpoint join (sep : string) (parts : list string) : string :=
  match parts with
  | [] => EmptyString
  | [p] => p
  | p :: ps => p ++ sep ++ join sep ps
  end.

Fixpoint lstrip (p : ascii -> bool) (s : string) : string :=
  match s with
  | EmptyString => EmptyString
  | String a s' => if p a then lstrip p s' else s
  end.

Fixpoint rstrip (p : ascii -> bool) (s : string) : string :=
  match s with
  | EmptyString => EmptyString
  | String a s' =>
      match rstrip p s' with
      | EmptyString => if p a then EmptyString else str1 a
      | r => String a r
      end
  end.

Definition strip_with (p : ascii -> bool) (s : string) : string :=
  rstrip p (lstrip p s).

(** The characters [str.strip()] removes: space, tab, newline, carriage
    return, vertical tab and form feed. *)
Definition is_space (a : ascii) : bool :=
  let n := nat_of_ascii a in
  Nat.eqb n 32 || (Nat.leb 9 n && Nat.leb n 13).

Definition strip (s : string) : string := strip_with is_space s.

(** [s.strip(chars)] *)
Definition strip_chars (chars : string) (s : string) : string :=
  strip_with (fun a => contains a chars) s.

Fixpoint starts_with (p s : string) : bool :=
  match p, s with
  | EmptyString, _ => true
  | String a p', String b s' => Ascii.eqb a b && starts_with p' s'
  | String _ _, EmptyString => false
  end.

(** [needle in haystack] for two pieces of text: substring test. *)
Fixpoint is_substring (needle hay : string) : bool :=
  starts_with needle hay ||
  match hay with
  | EmptyString => false
  | String _ hay' => is_substring needle hay'
  end.

Definition chars (s : string) : list string :=
  map str1 (list_ascii_of_string s).

Definition of_Z (z : Z) : string := NilZero.string_of_int (Z.to_int z).

End Text.

(** ** Python values *)

(** Decoded JSON, and every other Python value the program handles.
    JSON numbers are integers here (the numeric fields of both APIs,
    [number] and [id], are). *)
#[warnings="-register-all"] Inductive json : Type :=
| JNull
| JBool (b : bool)
| JNum (z : Z)
| JStr (s : string)
| JList (l : list json)
| JObj (kvs : list (string * json)).

Module Dict.

Section Ops.
Context {V : Type}.

Fixpoint get (k : string) (d : list (string * V)) : option V :=
  match d with
  | [] => None
  | (k', v) :: d' => if String.eqb k' k then Some v else get k d'
  end.

(** [k in d] *)
Definition has (k : string) (d : list (string * V)) : bool :=
  match get k d with
  | Some _ => true
  | None => false
  end.

(** [d[k] = v] *)
Fixpoint set (k : string) (v : V) (d : list (string * V))
  : list (string * V) :=
  match d with
  | [] => [(k, v)]
  | (k', v') :: d' =>
      if String.eqb k' k then (k', v) :: d' else (k', v') :: set k v d'
  end.

(** [d.setdefault(k, v)], for its effect on [d] *)
Definition setdefault (k : string) (v : V) (d : list (string * V))
  : list (string * V) :=
  if has k d then d else set k v d.

Fixpoint remove (k : string) (d : list (string * V)) : list (string * V) :=
  match d with
  | [] => []
  | (k', v) :: d' =>
      if String.eqb k' k then remove k d' else (k', v) :: remove k d'
  end.

Definition keys (d : list (string * V)) : list string := map fst d.

(** [dict(pairs)]: a later pair replaces an earlier one with its key. *)
Definition of_pairs (pairs : list (string * V)) : list (string * V) :=
  fold_left (fun d kv => set (fst kv) (snd kv) d) pairs [].

End Ops.

End Dict.

Definition dict : Type := list (string * json).

(** What the standard library does and the network returns. *)
Record response : Type := {
  (** the body as [json.loads] decodes it; [None] when it is not JSON *)
  body : option json;
  (** [headers.get("Link")] *)
  link_header : option string
}.

Record env : Type := {
  urlopen : string -> result response;
  urljoin : string -> string -> string;
  (** [str(v)] for a list or a dict *)
  repr_container : json -> string
}.

Module Py.

(** [bool(v)] *)
Definition truthy (v : json) : bool :=
  match v with
  | JNull => false
  | JBool b => b
  | JNum z => negb (Z.eqb z 0)
  | JStr s => negb (String.eqb s EmptyString)
  | JList l => match l with [] => false | _ => true end
  | JObj kvs => match kvs with [] => false | _ => true end
  end.

(** [v[k]] for a text key [k] *)
Definition getitem (v : json) (k : string) : result json :=
  match v with
  | JObj kvs =>
      match Dict.get k kvs with
      | Some x => Ok x
      | None => Raise KeyError
      end
  | _ => Raise TypeError
  end.

(** [iter(v)], drained *)
Definition iter (v : json) : result (list json) :=
  match v with
  | JList l => Ok l
  | JStr s => Ok (map JStr (Text.chars s))
  | JObj kvs => Ok (map JStr (Dict.keys kvs))
  | _ => Raise TypeError
  end.

(** [v == s] for a text literal [s] *)
Definition eq_str (v : json) (s : string) : bool :=
  match v with
  | JStr t => String.eqb t s
  | _ => false
  end.

(** [s in v] for a text literal [s] *)
Definition contains_str (s : string) (v : json) : result bool :=
  match v with
  | JList l => Ok (existsb (fun x => eq_str x s) l)
  | JStr t => Ok (Text.is_substring s t)
  | JObj kvs => Ok (Dict.has s kvs)
  | _ => Raise TypeError
  end.

(** [v in closed] for a set of text constants: [v] must be hashable. *)
Definition in_str_set (v : json) (closed : list string) : result bool :=
  match v with
  | JList _ | JObj _ => Raise TypeError
  | _ => Ok (existsb (fun s => eq_str v s) closed)
  end.

(** [str(v)] *)
Definition str (e : env) (v : json) : string :=
  match v with
  | JNull => "None"
  | JBool true => "True"
  | JBool false => "False"
  | JNum z => Text.of_Z z
  | JStr s => s
  | _ => repr_container e v
  end.

(** [sep.join(items)]: every item must be text. *)
Definition join (sep : string) (items : list json) : result string :=
  parts <- mapM (fun v => match v with
                          | JStr s => Ok s
                          | _ => Raise TypeError
                          end) items ;;
  Ok (Text.join sep parts).

(** [v.encode("utf8") if hasattr(v, "encode") else v] *)
Definition encode_utf8 (v : json) : json := v.

End Py.

(** ** [urllib.urlencode] *)

Module Urllib.

Definition always_safe (a : ascii) : bool :=
  let n := nat_of_ascii a in
  (Nat.leb 65 n && Nat.leb n 90) || (Nat.leb 97 n && Nat.leb n 122) ||
  (Nat.leb 48 n && Nat.leb n 57) ||
  Nat.eqb n 95 || Nat.eqb n 46 || Nat.eqb n 45.

Definition hex_digit (n : nat) : ascii :=
  if Nat.ltb n 10 then ascii_of_nat (48 + n) else ascii_of_nat (55 + n).

Definition percent (a : ascii) : string :=
  let n := nat_of_ascii a in
  String "%" (String (hex_digit (n / 16)) (Text.str1 (hex_digit (n mod 16)))).

Fixpoint quote_plus (s : string) : string :=
  match s with
  | EmptyString => EmptyString
  | String a s' =>
      (if always_safe a then Text.str1 a
       else if Ascii.eqb a " " then "+"
       else percent a) ++ quote_plus s'
  end.

(** The [key=value] parameters of one filter, with [doseq=True]: a
    sequence value gives one parameter per element. *)
Definition params_of (e : env) (kv : string * json) : list (string * string) :=
  let '(k, v) := kv in
  match v with
  | JStr s => [(k, s)]
  | JList l => map (fun elt => (k, Py.str e elt)) l
  | JObj kvs => map (fun key => (k, key)) (Dict.keys kvs)
  | _ => [(k, Py.str e v)]
  end.

Definition params (e : env) (query : dict) : list (string * string) :=
  flat_map (params_of e) query.

Definition encode_param (p : string * string) : string :=
  quote_plus (fst p) ++ "=" ++ quote_plus (snd p).

Definition urlencode (e : env) (query : dict) : string :=
  Text.join "&" (map encode_param (params e query)).

End Urllib.

(** ** The ten columns *)

Definition fieldnames : list string :=
  ["source"; "id"; "url"; "assigned"; "status"; "title"; "product";
   "module"; "patch"; "feature"].

(** ** class Github *)

Module Github.

Definition API_BASE : string := "https://api.github.com/".

Record t : Type := {
  user : json;
  repo : json;
  filters : dict
}.

(** The call [source_class(args, kwargs)] for [Github]: Python binds [user] and [repo] from the
    positional arguments first, then from same-named keywords; a keyword
    for a parameter that is already bound, a missing parameter or a
    surplus positional argument is a [TypeError]; the remaining keywords
    are [filters]. *)
Definition init (args : list json) (kwargs : dict) : result t :=
  if Dict.has "self" kwargs then Raise TypeError else
  match args with
  | [u; r] =>
      if Dict.has "user" kwargs || Dict.has "repo" kwargs
      then Raise TypeError
      else Ok {| user := u; repo := r; filters := kwargs |}
  | [u] =>
      if Dict.has "user" kwargs then Raise TypeError else
      match Dict.get "repo" kwargs with
      | Some r =>
          Ok {| user := u; repo := r; filters := Dict.remove "repo" kwargs |}
      | None => Raise TypeError
      end
  | [] =>
      match Dict.get "user" kwargs, Dict.get "repo" kwargs with
      | Some u, Some r =>
          Ok {| user := u; repo := r;
                filters := Dict.remove "user" (Dict.remove "repo" kwargs) |}
      | _, _ => Raise TypeError
      end
  | _ => Raise TypeError
  end.

(** [is_enhancement(iter)]: [it] lists what successive [iter.next()]
    calls give, a raised exception included; the end of the list is
    [StopIteration]. *)
Fixpoint is_enhancement (it : list (result bool)) : result string :=
  match it with
  | [] => Ok "n"
  | Raise e :: _ => Raise e
  | Ok true :: _ => Ok "y"
  | Ok false :: rest => is_enhancement rest
  end.

(** The generator [(i["name"] == "task" for i in labels)] *)
Definition task_flags (labels : list json) : list (result bool) :=
  map (fun i => name <- Py.getitem i "name" ;; Ok (Py.eq_str name "task"))
      labels.

(** The dictionary [get_all] yields for one issue; the entries are
    evaluated in the order of the literal. *)
Definition normalize (self : t) (issue : json) : result dict :=
  number <- Py.getitem issue "number" ;;
  html_url <- Py.getitem issue "html_url" ;;
  assignee <- Py.getitem issue "assignee" ;;
  assigned <- (if Py.truthy assignee
               then a <- Py.getitem issue "assignee" ;; Py.getitem a "login"
               else Ok (JStr "nobody")) ;;
  state <- Py.getitem issue "state" ;;
  title <- Py.getitem issue "title" ;;
  pull_request <- Py.getitem issue "pull_request" ;;
  pr_url <- Py.getitem pull_request "html_url" ;;
  labels <- Py.getitem issue "labels" ;;
  label_iter <- Py.iter labels ;;
  feature <- is_enhancement (task_flags label_iter) ;;
  Ok [("source", JStr "github");
      ("id", number);
      ("url", html_url);
      ("assigned", assigned);
      ("status", state);
      ("title", title);
      ("product", repo self);
      ("module", repo self);
      ("patch", JStr (if Py.truthy pr_url then "y" else "n"));
      ("feature", JStr feature)].

Definition rel_next : string :=
  "rel=" ++ String Text.quote_char ("next" ++ Text.str1 Text.quote_char).

(** One element of the generator handed to [dict(...)]: the reversed
    list of the stripped [;]-separated parts, which [dict] accepts only
    when it has two entries. *)
Definition link_pair (l : string) : result (string * string) :=
  match rev (map Text.strip (Text.split ";" (Text.strip l))) with
  | [k; v] => Ok (k, v)
  | _ => Raise ValueError
  end.

(** The URL of the next page, the empty text when there is none. *)
Definition next_url (link : option string) : result string :=
  let header := match link with Some h => h | None => ";" end in
  pairs <- mapM link_pair (Text.split "," header) ;;
  Ok (Text.strip_chars "<>"
        (match Dict.get rel_next (Dict.of_pairs pairs) with
         | Some u => u
         | None => EmptyString
         end)).

Definition first_url (e : env) (self : t) : result string :=
  let filters := Dict.setdefault "per_page" (JNum 100) (filters self) in
  path <- Py.join "/" [JStr "repos"; user self; repo self; JStr "issues"] ;;
  Ok (urljoin e API_BASE path ++ "?" ++ Urllib.urlencode e filters).

(** The [while url:] loop; one unit of fuel per page fetched. *)
Fixpoint fetch_pages (e : env) (fuel : nat) (url : string) : trace json :=
  if String.eqb url EmptyString then ([], Done) else
  match fuel with
  | O => ([], OutOfFuel)
  | S fuel' =>
      match urlopen e url with
      | Raise x => ([], Raised x)
      | Ok response =>
          match body response with
          | None => ([], Raised ValueError)
          | Some data =>
              match Py.iter data with
              | Raise x => ([], Raised x)
              | Ok issues =>
                  match next_url (link_header response) with
                  | Raise x => (issues, Raised x)
                  | Ok url' =>
                      let '(more, o) := fetch_pages e fuel' url' in
                      ((issues ++ more)%list, o)
                  end
              end
          end
      end
  end.

Definition get_issues (e : env) (fuel : nat) (self : t) : trace json :=
  match first_url e self with
  | Raise x => ([], Raised x)
  | Ok url => fetch_pages e fuel url
  end.

Definition get_all (e : env) (fuel : nat) (self : t) : trace dict :=
  let '(issues, o) := get_issues e fuel self in
  for_each (normalize self) issues o.

End Github.

(** ** class Bugzilla *)

Module Bugzilla.

Definition API_BASE : string :=
  "https://api-dev.bugzilla.mozilla.org/latest/bug".

Definition BUG_URL_FORMAT (id : string) : string :=
  "https://bugzilla.mozilla.org/show_bug.cgi?id=" ++ id.

Definition CLOSED_STATES : list string := ["RESOLVED"; "VERIFIED"; "CLOSED"].

Record t : Type := {
  filters : dict
}.

(** The call [source_class(args, kwargs)] for [Bugzilla]: no positional
    parameter besides [self] *)
Definition init (args : list json) (kwargs : dict) : result t :=
  if Dict.has "self" kwargs then Raise TypeError else
  match args with
  | [] => Ok {| filters := kwargs |}
  | _ => Raise TypeError
  end.

(** The dictionary [get_all] yields for one bug. *)
Definition normalize (e : env) (issue : json) : result dict :=
  id <- Py.getitem issue "id" ;;
  id' <- Py.getitem issue "id" ;;
  assigned_to <- Py.getitem issue "assigned_to" ;;
  name <- Py.getitem assigned_to "name" ;;
  status <- Py.getitem issue "status" ;;
  closed <- Py.in_str_set status CLOSED_STATES ;;
  summary <- Py.getitem issue "summary" ;;
  product <- Py.getitem issue "product" ;;
  component <- Py.getitem issue "component" ;;
  has_attachments <- Py.contains_str "attachments" issue ;;
  keywords <- Py.getitem issue "keywords" ;;
  is_feature <- Py.contains_str "feature" keywords ;;
  Ok [("source", JStr "bugzilla");
      ("id", id);
      ("url", JStr (BUG_URL_FORMAT (Py.str e id')));
      ("assigned", name);
      ("status", JStr (if closed then "closed" else "open"));
      ("title", summary);
      ("product", product);
      ("module", component);
      ("patch", JStr (if has_attachments then "y" else "n"));
      ("feature", JStr (if is_feature then "y" else "n"))].

Definition include_fields : string :=
  "id,assigned_to,status,summary,product,component,attachments,keywords".

(** The request URL.  The local copy of the filters receives
    [include_fields]; the query is encoded from [self.filters]. *)
Definition request_url (e : env) (self : t) : string :=
  let filters' := Dict.set "include_fields" (JStr include_fields)
                    (filters self) in
  API_BASE ++ "?" ++ Urllib.urlencode e (filters self).

Definition get_issues (e : env) (self : t) : trace json :=
  match urlopen e (request_url e self) with
  | Raise x => ([], Raised x)
  | Ok response =>
      match body response with
      | None => ([], Raised ValueError)
      | Some data =>
          match bugs <- Py.getitem data "bugs" ;; Py.iter bugs with
          | Raise x => ([], Raised x)
          | Ok issues => (issues, Done)
          end
      end
  end.

Definition get_all (e : env) (self : t) : trace dict :=
  let '(issues, o) := get_issues e self in
  for_each (normalize e) issues o.

End Bugzilla.

(** ** Source definitions *)

Inductive source : Type :=
| SGithub (g : Github.t)
| SBugzilla (b : Bugzilla.t).

Inductive source_class : Type :=
| GithubClass
| BugzillaClass.

Definition SOURCE_TYPES : list (string * source_class) :=
  [("github", GithubClass); ("bugzilla", BugzillaClass)].

(** [source_class(args, kwargs)] *)
Definition construct (c : source_class) (args : list json) (kwargs : dict)
  : result source :=
  match c with
  | GithubClass => g <- Github.init args kwargs ;; Ok (SGithub g)
  | BugzillaClass => b <- Bugzilla.init args kwargs ;; Ok (SBugzilla b)
  end.

(** [kwargs = defaultdict(list)] *)
Definition kwargs_t : Type := list (string * list string).

(** [kwargs[key].append(val)] *)
Definition append_value (key val : string) (kwargs : kwargs_t) : kwargs_t :=
  let old := match Dict.get key kwargs with
             | Some vals => vals
             | None => []
             end in
  Dict.set key (old ++ [val])%list kwargs.

Definition kwargs_dict (kwargs : kwargs_t) : dict :=
  map (fun kv => (fst kv, JList (map JStr (snd kv)))) kwargs.

(** The body of [for bit in bits], on the pair [(args, kwargs)]. *)
Definition parse_bit (st : list string * kwargs_t) (bit : string)
  : result (list string * kwargs_t) :=
  let '(args, kwargs) := st in
  if Text.contains "=" bit then
    match Text.split "=" bit with
    | [key; val] => Ok (args, append_value key val kwargs)
    | _ => Raise ValueError
    end
  else Ok ((args ++ [bit])%list, kwargs).

Definition parse_source (definition : string) : result source :=
  match Text.split ":" definition with
  | [] => Raise IndexError
  | tag :: bits =>
      match Dict.get tag SOURCE_TYPES with
      | None => Raise KeyError
      | Some cls =>
          st <- foldM parse_bit bits ([], []) ;;
          construct cls (map JStr (fst st)) (kwargs_dict (snd st))
      end
  end.

(** ** The [csv] module, default (excel) dialect *)

Module Csv.

Definition crlf : string := String Text.cr (Text.str1 Text.lf).

Definition needs_quote (s : string) : bool :=
  Text.contains "," s || Text.contains Text.quote_char s ||
  Text.contains Text.cr s || Text.contains Text.lf s.

Fixpoint double_quotes (s : string) : string :=
  match s with
  | EmptyString => EmptyString
  | String a s' =>
      if Ascii.eqb a Text.quote_char
      then String a (String a (double_quotes s'))
      else String a (double_quotes s')
  end.

Definition field_text (e : env) (v : json) : string :=
  match v with
  | JNull => EmptyString
  | _ => Py.str e v
  end.

Definition quoted (s : string) : string :=
  String Text.quote_char (double_quotes s ++ Text.str1 Text.quote_char).

Definition quote_field (s : string) : string :=
  if needs_quote s then quoted s else s.

(** The text [writer.writerow(row)] writes. *)
Definition writerow (e : env) (row : list json) : string :=
  match map (field_text e) row with
  | [EmptyString] => quoted EmptyString ++ crlf
  | cells => Text.join "," (map quote_field cells) ++ crlf
  end.

End Csv.

Module DictWriter.

(** [_dict_to_list], with [extrasaction="raise"] and the empty text as
    [restval] *)
Definition dict_to_list (fields : list string) (rowdict : dict)
  : result (list json) :=
  if forallb (fun k => existsb (String.eqb k) fields) (Dict.keys rowdict)
  then Ok (map (fun key => match Dict.get key rowdict with
                           | Some v => v
                           | None => JStr EmptyString
                           end) fields)
  else Raise ValueError.

Definition writerow (e : env) (fields : list string) (rowdict : dict)
  : result string :=
  row <- dict_to_list fields rowdict ;;
  Ok (Csv.writerow e row).

End DictWriter.

(** ** main *)

Definition get_all (e : env) (fuel : nat) (s : source) : trace dict :=
  match s with
  | SGithub g => Github.get_all e fuel g
  | SBugzilla b => Bugzilla.get_all e b
  end.

(** [dict((k, encode(v)) for k, v in issue.items())] *)
Definition encode_record (issue : dict) : dict :=
  Dict.of_pairs (map (fun kv => (fst kv, Py.encode_utf8 (snd kv))) issue).

(** The rows written to [output], one text per [writerow] call, and how
    the run ends.  The sources are parsed before anything is written. *)
Definition main (e : env) (fuel : nat) (argv_sources : list string)
  : trace string :=
  match mapM parse_source argv_sources with
  | Raise x => ([], Raised x)
  | Ok sources =>
      match DictWriter.writerow e fieldnames
              (Dict.of_pairs (combine fieldnames (map JStr fieldnames))) with
      | Raise x => ([], Raised x)
      | Ok header =>
          let '(issues, o) := chain (map (get_all e fuel) sources) in
          let '(rows, o') :=
            for_each (fun issue =>
                        DictWriter.writerow e fieldnames (encode_record issue))
                     issues o in
          (header :: rows, o')
      end
  end.

(** ** Sample data *)

Module Sample.

Definition quoted (s : string) : string :=
  String Text.quote_char (s ++ Text.str1 Text.quote_char).

Definition label (name : string) : json := JObj [("name", JStr name)].

(** A github issue as the API sends it. *)
Definition issue (number : Z) (title : json) (pr_url : json)
  (labels : list json) : json :=
  JObj [("number", JNum number);
        ("html_url", JStr "https://github.com/acme/widgets/issues/1");
        ("assignee", JNull);
        ("state", JStr "open");
        ("title", title);
        ("pull_request", JObj [("html_url", pr_url)]);
        ("labels", JList labels)].

(** The same without the [pull_request] entry. *)
Definition issue_without_pull_request : json :=
  JObj [("number", JNum 4);
        ("html_url", JStr "https://github.com/acme/widgets/issues/4");
        ("assignee", JNull);
        ("state", JStr "open");
        ("title", JStr "Crash on start");
        ("labels", JList [])].

Definition bug (id : Z) (extra : list (string * json)) : json :=
  JObj ([("id", JNum id);
         ("assigned_to", JObj [("name", JStr "Bob")]);
         ("status", JStr "RESOLVED");
         ("summary", JStr "Toolbar flickers");
         ("product", JStr "Firefox");
         ("component", JStr "Toolbars");
         ("keywords", JList [JStr "feature"])] ++ extra)%list.

Definition widgets : Github.t :=
  {| Github.user := JStr "acme"; Github.repo := JStr "widgets";
     Github.filters := [("state", JList [JStr "open"])] |}.

Definition new_bugs : Bugzilla.t :=
  {| Bugzilla.filters := [("status", JList [JStr "NEW"])] |}.

Definition page (issues : list json) (link : option string) : response :=
  {| body := Some (JList issues); link_header := link |}.

Definition first_page_url : string :=
  "https://api.github.com/repos/acme/widgets/issues?state=open&per_page=100".

Definition second_page_url : string :=
  "https://api.github.com/repos/acme/widgets/issues?page=2".

Definition bugs_url : string :=
  "https://api-dev.bugzilla.mozilla.org/latest/bug?status=NEW".

(** A server with two pages of github issues and one bug. *)
Definition server (url : string) : result response :=
  if String.eqb url first_page_url then
    Ok (page [issue 1 (JStr "One") JNull []; issue 2 (JStr "Two") JNull []]
             (Some ("<" ++ second_page_url ++ ">; rel=" ++ quoted "next")))
  else if String.eqb url second_page_url then
    Ok (page [issue 3 (JStr "Three") (JStr "https://github.com/acme/widgets/pull/3")
                [label "task"]] None)
  else if String.eqb url bugs_url then
    Ok {| body := Some (JObj [("bugs", JList [bug 7 []])]);
          link_header := None |}
  else Raise URLError.

Definition world : env :=
  {| urlopen := server;
     urljoin := fun base path => base ++ path;
     repr_container := fun _ => "[...]" |}.

End Sample.

(** ** Cutting a text at a separator *)

Module Cut.

(** The text left of the first [c]. *)
Fixpoint before (c : ascii) (s : string) : string :=
  match s with
  | EmptyString => EmptyString
  | String a s' => if Ascii.eqb a c then EmptyString else String a (before c s')
  end.

(** The text right of the first [c]. *)
Fixpoint after (c : ascii) (s : string) : string :=
  match s with
  | EmptyString => EmptyString
  | String a s' => if Ascii.eqb a c then s' else after c s'
  end.

End Cut.

(** ** The source-definition grammar, as the specification words it *)

Module Grammar.

Definition is_assignment (segment : string) : bool :=
  Text.contains "=" segment.

(** The segments after the type tag. *)
Definition bits (definition : string) : list string :=
  tl (Text.split ":" definition).

Definition tag (definition : string) : string :=
  hd EmptyString (Text.split ":" definition).

(** The segments without [=], left to right. *)
Definition positional (segments : list string) : list string :=
  filter (fun b => negb (is_assignment b)) segments.

(** The [key=val] segments as pairs, left to right. *)
Definition assignments (segments : list string) : list (string * string) :=
  map (fun b => (Cut.before "=" b, Cut.after "=" b)) (filter is_assignment segments).

(** The values given to [key], in the order their segments appear. *)
Definition values_of (key : string) (segments : list string) : list string :=
  map snd (filter (fun kv => String.eqb (fst kv) key) (assignments segments)).

(** How many positional arguments a source type takes. *)
Definition arity (tag : string) : option nat :=
  if String.eqb tag "github" then Some 2
  else if String.eqb tag "bugzilla" then Some 0
  else None.

(** The parameter names of the constructor, which no filter may use. *)
Definition parameter_names (tag : string) : list string :=
  if String.eqb tag "github" then ["self"; "user"; "repo"] else ["self"].

(** A valid definition: a registered type, as many positional segments
    as the type takes, one [=] in every segment that has any, and no
    filter named like a constructor parameter. *)
Definition valid (definition : string) : bool :=
  match arity (tag definition) with
  | None => false
  | Some n =>
      Nat.eqb (List.length (positional (bits definition))) n &&
      forallb (fun b => Nat.leb (Text.count "=" b) 1) (bits definition) &&
      forallb (fun kv => negb (existsb (String.eqb (fst kv))
                                 (parameter_names (tag definition))))
              (assignments (bits definition))
  end.

End Grammar.


Definition source_filters (s : source) : dict :=
  match s with
  | SGithub g => Github.filters g
  | SBugzilla b => Bugzilla.filters b
  end.

(** ** The Link header, as the specification words it *)

Module LinkHeader.

(** [rel="name"] *)
Definition rel (name : string) : string :=
  "rel=" ++ String Text.quote_char (name ++ Text.str1 Text.quote_char).

(** [<url>; rel="name"] *)
Definition entry (target name : string) : string :=
  "<" ++ target ++ ">; " ++ rel name.

(** A comma-separated list of [<url>; rel="name"] pairs. *)
Definition render (entries : list (string * string)) : string :=
  Text.join ", " (map (fun en => entry (fst en) (snd en)) entries).

Definition plain (s : string) : bool :=
  negb (Text.contains "," s) && negb (Text.contains ";" s).

Definition is_angle (a : ascii) : bool := Text.contains a "<>".

Definition first_char (s : string) : option ascii :=
  match s with
  | EmptyString => None
  | String a _ => Some a
  end.

Fixpoint last_char (s : string) : option ascii :=
  match s with
  | EmptyString => None
  | String a EmptyString => Some a
  | String _ s' => last_char s'
  end.

Definition not_angle (o : option ascii) : bool :=
  match o with
  | Some a => negb (is_angle a)
  | None => true
  end.

(** A URL and a relation name that the header can carry as they are:
    no separator inside, no angle bracket at either end of the URL. *)
Definition well_formed (en : string * string) : bool :=
  plain (fst en) && plain (snd en) &&
  not_angle (first_char (fst en)) && not_angle (last_char (fst en)).

(** The header carries a [rel="next"] entry, and it points to [url]. *)
Definition points_to (entries : list (string * string)) (url : string) : Prop :=
  In (url, "next") entries /\
  forall url', In (url', "next") entries -> url' = url.

Definition no_next (entries : list (string * string)) : Prop :=
  forall url, ~ In (url, "next") entries.

(** What an arbitrary header text holds: its comma-separated entries,
    and of an entry the trimmed texts left and right of its [;]. *)
Definition entries_of (header : string) : list string :=
  Text.split "," header.

Definition two_parts (en : string) : bool :=
  Nat.eqb (Text.count ";" en) 1.

Definition target (en : string) : string :=
  Text.strip (Cut.before ";" (Text.strip en)).

Definition relation (en : string) : string :=
  Text.strip (Cut.after ";" (Text.strip en)).

End LinkHeader.

(** ** A paginated listing on the server *)

Record page_spec : Type := {
  page_url : string;
  page_issues : list json;
  (** the entries of the Link header, [None] when there is no header *)
  page_links : option (list (string * string))
}.

Definition page_response (p : page_spec) : response :=
  {| body := Some (JList (page_issues p));
     link_header := option_map LinkHeader.render (page_links p) |}.

(** The server answers [page_url p] with page [p], whose header, when
    present, has at least one entry and only well-formed ones. *)
Definition serves (e : env) (p : page_spec) : Prop :=
  page_url p <> EmptyString /\
  urlopen e (page_url p) = Ok (page_response p) /\
  match page_links p with
  | None => True
  | Some entries =>
      entries <> [] /\ forallb LinkHeader.well_formed entries = true
  end.

(** Page [p] is served and linked to the pages after it, the last of
    which has no [rel="next"] entry. *)
Fixpoint linked (e : env) (p : page_spec) (rest : list page_spec) : Prop :=
  serves e p /\
  match rest with
  | [] =>
      match page_links p with
      | None => True
      | Some entries => LinkHeader.no_next entries
      end
  | q :: rest' =>
      match page_links p with
      | None => False
      | Some entries => LinkHeader.points_to entries (page_url q)
      end /\
      linked e q rest'
  end.

(** A server whose only page carries a Link header without a [;]. *)
Definition malformed_link : string :=
  "<https://api.github.com/repos/acme/widgets/issues?page=2>".

Definition broken_world : env :=
  {| urlopen := fun _ =>
       Ok (Sample.page [Sample.issue 1 (JStr "One") JNull []]
             (Some malformed_link));
     urljoin := fun base path => base ++ path;
     repr_container := fun _ => "[...]" |}.

(** The two github pages of [Sample.server] as a linked listing. *)
Definition sample_first_page : page_spec :=
  {| page_url := Sample.first_page_url;
     page_issues := [Sample.issue 1 (JStr "One") JNull [];
                     Sample.issue 2 (JStr "Two") JNull []];
     page_links := Some [(Sample.second_page_url, "next")] |}.

Definition sample_second_page : page_spec :=
  {| page_url := Sample.second_page_url;
     page_issues := [Sample.issue 3 (JStr "Three")
                       (JStr "https://github.com/acme/widgets/pull/3")
                       [Sample.label "task"]];
     page_links := None |}.

(** ** What a record is made of *)

Definition is_text_or_integer (v : json) : bool :=
  match v with
  | JStr _ | JNum _ => true
  | _ => false
  end.

(** The raw issues a source fetches. *)
Definition get_issues (e : env) (fuel : nat) (s : source) : trace json :=
  match s with
  | SGithub g => Github.get_issues e fuel g
  | SBugzilla b => Bugzilla.get_issues e b
  end.

(** The raw values a source copies into a record without looking at
    their type. *)
Definition copied_fields (s : source) (raw : json) : list (result json) :=
  match s with
  | SGithub _ =>
      [Py.getitem raw "number";
       Py.getitem raw "html_url";
       (a <- Py.getitem raw "assignee" ;;
        if Py.truthy a then Py.getitem a "login" else Ok (JStr "nobody"));
       Py.getitem raw "state";
       Py.getitem raw "title"]
  | SBugzilla _ =>
      [Py.getitem raw "id";
       (a <- Py.getitem raw "assigned_to" ;; Py.getitem a "name");
       Py.getitem raw "summary";
       Py.getitem raw "product";
       Py.getitem raw "component"]
  end.

Definition copies_text_or_integers (s : source) (raw : json) : Prop :=
  Forall (fun r => forall v, r = Ok v -> is_text_or_integer v = true)
         (copied_fields s raw).

Definition is_flag (v : option json) : Prop :=
  v = Some (JStr "y") \/ v = Some (JStr "n").

(** A server whose only github issue has a null title. *)
Definition null_title_world : env :=
  {| urlopen := fun _ =>
       Ok (Sample.page [Sample.issue 1 JNull JNull []] None);
     urljoin := fun base path => base ++ path;
     repr_container := fun _ => "[...]" |}.

(** ** The CSV, as the specification words it *)

(** The cells of a record in the fixed column order. *)
Definition cells (rec : dict) : list json :=
  map (fun key => match Dict.get key rec with
                  | Some v => v
                  | None => JStr EmptyString
                  end) fieldnames.


Definition header_text : string :=
  "source,id,url,assigned,status,title,product,module,patch,feature"
  ++ Csv.crlf.

(** The records the sample server's listings normalize to. *)
Definition sample_github_issues : list json :=
  List.concat (map page_issues [sample_first_page; sample_second_page]).


Definition sample_github_records : list dict :=
  Eval vm_compute in fst (Github.get_all Sample.world 2 Sample.widgets).

Definition sample_bugzilla_records : list dict :=
  Eval vm_compute in fst (Bugzilla.get_all Sample.world Sample.new_bugs).


(** ** Notions used by the proofs *)

(** No value the loop stores contains [=]. *)
Definition clean_values (kwargs : kwargs_t) : Prop :=
  forall k vals, In (k, vals) kwargs ->
                 Forall (fun v => Text.contains "=" v = false) vals.

(** The loop on a list of well-formed segments: the positional ones are
    appended in order and the assignments are filed under their keys. *)
Definition file_assignments (assigns : list (string * string))
  (kwargs : kwargs_t) : kwargs_t :=
  fold_left (fun kw kv => append_value (fst kv) (snd kv) kw) assigns kwargs.

(** The pairs [dict] receives from a rendered header. *)
Definition link_pairs (entries : list (string * string))
  : list (string * string) :=
  map (fun en => (LinkHeader.rel (snd en), "<" ++ fst en ++ ">")) entries.

(** A server whose page names itself as the next page. *)
Definition looping_page : page_spec :=
  {| page_url := Sample.first_page_url;
     page_issues := [Sample.issue 1 (JStr "One") JNull []];
     page_links := Some [(Sample.first_page_url, "next")] |}.

Definition looping_world : env :=
  {| urlopen := fun _ => Ok (page_response looping_page);
     urljoin := fun base path => base ++ path;
     repr_container := fun _ => "[...]" |}.

(** The URL of the last entry named [next], if any. *)
Fixpoint last_next (entries : list (string * string)) : option string :=
  match entries with
  | [] => None
  | en :: rest =>
      match last_next rest with
      | Some url => Some url
      | None => if String.eqb (snd en) "next" then Some (fst en) else None
      end
  end.

Definition two_next_entries : list (string * string) :=
  [("https://api.github.com/a", "next");
   ("https://api.github.com/z", "last");
   ("https://api.github.com/b", "next")].

(** The record a source makes of one raw issue. *)
Definition normalize (e : env) (s : source) (raw : json) : result dict :=
  match s with
  | SGithub g => Github.normalize g raw
  | SBugzilla _ => Bugzilla.normalize e raw
  end.

(** The parameters of a query with a given key, in the order sent. *)
Definition query_values (key : string) (query : list (string * string))
  : list string :=
  map snd (filter (fun p => String.eqb (fst p) key) query).

(** The query parameters a [defaultdict] of value lists stands for. *)
Definition kwargs_params (kwargs : kwargs_t) : list (string * string) :=
  flat_map (fun kv => map (pair (fst kv)) (snd kv)) kwargs.

(** The keys each source reads from a raw issue without a default. *)
Definition required_keys (s : source) : list string :=
  match s with
  | SGithub _ =>
      ["number"; "html_url"; "assignee"; "state"; "title"; "pull_request";
       "labels"]
  | SBugzilla _ =>
      ["id"; "assigned_to"; "status"; "summary"; "product"; "component";
       "keywords"]
  end.

(** A server that answers the first page and then fails. *)
Definition flaky_world : env :=
  {| urlopen := fun url =>
       if String.eqb url Sample.first_page_url
       then Ok (page_response sample_first_page)
       else Raise URLError;
     urljoin := fun base path => base ++ path;
     repr_container := fun _ => "[...]" |}.

(** A server that answers with an error object instead of a list. *)
Definition error_object : list (string * json) :=
  [("message", JStr "Not Found")].

Definition refusing_world : env :=
  {| urlopen := fun _ =>
       Ok {| body := Some (JObj error_object); link_header := None |};
     urljoin := fun base path => base ++ path;
     repr_container := fun _ => "[...]" |}.

(** A server whose first page links to a second page whose URL holds a
    comma (a [labels] filter with two labels). *)
Definition comma_next_url : string :=
  "https://api.github.com/repos/acme/widgets/issues?labels=bug,ui&page=2".

Definition comma_first_page : page_spec :=
  {| page_url := Sample.first_page_url;
     page_issues := [Sample.issue 1 (JStr "One") JNull []];
     page_links := Some [(comma_next_url, "next")] |}.

Definition comma_second_page : page_spec :=
  {| page_url := comma_next_url;
     page_issues := [Sample.issue 2 (JStr "Two") JNull []];
     page_links := None |}.

Definition comma_world : env :=
  {| urlopen := fun url =>
       if String.eqb url Sample.first_page_url
       then Ok (page_response comma_first_page)
       else if String.eqb url comma_next_url
       then Ok (page_response comma_second_page)
       else Raise URLError;
     urljoin := fun base path => base ++ path;
     repr_container := fun _ => "[...]" |}.

(** * Properties *)

(** ** The error monad *)

Lemma bind_ok {A B : Type} (c : result A) (k : A -> result B) (b : B) :
  bind c k = Ok b -> exists a, c = Ok a /\ k a = Ok b.
Proof.
  destruct c as [a|x]; simpl; intros H; [exists a; auto | discriminate].
Qed.

Lemma bind_raise {A B : Type} (c : result A) (k : A -> result B) (x : exn) :
  c = Raise x -> bind c k = Raise x.
Proof. intros ->; reflexivity. Qed.

(** Splits a hypothesis [x <- c ;; k = Ok r] into its steps. *)
Ltac invert_binds H :=
  repeat (let a := fresh "v" in
          let E := fresh "E" in
          apply bind_ok in H; destruct H as (a & E & H)).

Lemma mapM_ok_length {A B : Type} (f : A -> result B) (l : list A) (r : list B) :
  mapM f l = Ok r -> List.length r = List.length l.
Proof.
  revert r; induction l as [|x xs IH]; simpl; intros r H.
  - injection H as <-; reflexivity.
  - invert_binds H. injection H as <-. simpl. f_equal. eauto.
Qed.



(** Every item a [for_each] loop yields is the image of an item of the
    underlying generator. *)
Lemma for_each_In {A B : Type} (f : A -> result B) (l : list A) (o o' : outcome)
  (r : list B) (y : B) :
  for_each f l o = (r, o') -> In y r -> exists x, In x l /\ f x = Ok y.
Proof.
  revert r; induction l as [|x xs IH]; simpl; intros r H Hy.
  - injection H as <- _. destruct Hy.
  - destruct (f x) as [b|e] eqn:Ef.
    + destruct (for_each f xs o) as [ys o1] eqn:Er. injection H as <- <-.
      destruct Hy as [->|Hy].
      * exists x; auto.
      * destruct (IH ys eq_refl Hy) as (x' & Hin & Hx'). exists x'; auto.
    + injection H as <- _. destruct Hy.
Qed.

(** ** Python values *)

Lemma eq_str_true (v : json) (s : string) :
  Py.eq_str v s = true <-> v = JStr s.
Proof.
  destruct v; simpl; try (split; [discriminate | intros H; discriminate H]).
  rewrite String.eqb_eq. split; [intros ->; reflexivity | intros H; injection H; auto].
Qed.

Lemma getitem_ok_obj (v : json) (k : string) (x : json) :
  Py.getitem v k = Ok x -> exists kvs, v = JObj kvs /\ Dict.get k kvs = Some x.
Proof.
  destruct v; simpl; try discriminate.
  destruct (Dict.get k kvs) eqn:E; [|discriminate].
  intros H; injection H as ->. eauto.
Qed.

(** ** Github: the feature flag *)

Lemma is_enhancement_task_flags (labels : list json) (f : string) :
  Github.is_enhancement (Github.task_flags labels) = Ok f ->
  (f = "y" /\ exists l, In l labels /\ Py.getitem l "name" = Ok (JStr "task")) \/
  (f = "n" /\ forall l, In l labels -> Py.getitem l "name" <> Ok (JStr "task")).
Proof.
  induction labels as [|i rest IH]; simpl; intros H.
  - injection H as <-. right. split; [reflexivity | intros l []].
  - destruct (Py.getitem i "name") as [name|x] eqn:En; simpl in H; [|discriminate].
    destruct (Py.eq_str name "task") eqn:Et.
    + injection H as <-. apply eq_str_true in Et. subst name.
      left. split; [reflexivity | exists i; auto].
    + destruct (IH H) as [(-> & l & Hin & Hl) | (-> & Hall)].
      * left. split; [reflexivity | exists l; auto].
      * right. split; [reflexivity|]. intros l [<-|Hin]; [|auto].
        rewrite En. intros Heq. injection Heq as ->. simpl in Et. discriminate.
Qed.

(** When every label is an object with a [name], the flag is computed. *)
Lemma is_enhancement_total (labels : list json) :
  Forall (fun l => exists name, Py.getitem l "name" = Ok name) labels ->
  exists f, Github.is_enhancement (Github.task_flags labels) = Ok f.
Proof.
  induction 1 as [|l rest (name & Hn) _ IH]; simpl.
  - eauto.
  - rewrite Hn. simpl. destruct (Py.eq_str name "task"); eauto.
Qed.

(** C6: the [feature] field of a normalized github issue is ["y"]
    exactly when some label of the issue is named ["task"], and ["n"]
    otherwise; with no labels it is ["n"]. *)
Theorem github_feature_iff_task_label
  (self : Github.t) (issue : json) (rec : dict) (labels : list json) :
  Github.normalize self issue = Ok rec ->
  Py.getitem issue "labels" = Ok (JList labels) ->
  (Dict.get "feature" rec = Some (JStr "y") <->
   exists l, In l labels /\ Py.getitem l "name" = Ok (JStr "task")) /\
  (Dict.get "feature" rec = Some (JStr "n") <->
   ~ exists l, In l labels /\ Py.getitem l "name" = Ok (JStr "task")) /\
  (labels = [] -> Dict.get "feature" rec = Some (JStr "n")).
Proof.
  intros H Hl. unfold Github.normalize in H. invert_binds H.
  injection H as <-. rewrite Hl in E7. injection E7 as <-.
  simpl in E8. injection E8 as <-.
  change (Dict.get "feature" _) with (Some (JStr v9)).
  destruct (is_enhancement_task_flags _ _ E9) as [(-> & Hex) | (-> & Hall)].
  - split; [|split].
    + split; auto.
    + split; [discriminate | intros Hn; contradiction].
    + intros ->. destruct Hex as (l & [] & _).
  - assert (Hno : ~ exists l, In l labels /\ Py.getitem l "name" = Ok (JStr "task")).
    { intros (l & Hin & Hn). exact (Hall l Hin Hn). }
    split; [|split].
    + split; [discriminate | intros Hex; contradiction].
    + split; auto.
    + auto.
Qed.

Lemma github_feature_iff_task_label_witness :
  Dict.get "feature"
    [("source", JStr "github"); ("id", JNum 3);
     ("url", JStr "https://github.com/acme/widgets/issues/1");
     ("assigned", JStr "nobody"); ("status", JStr "open");
     ("title", JStr "Three"); ("product", JStr "widgets");
     ("module", JStr "widgets"); ("patch", JStr "n");
     ("feature", JStr "y")] = Some (JStr "y") <->
  exists l, In l [Sample.label "bug"; Sample.label "task"] /\
            Py.getitem l "name" = Ok (JStr "task").
Proof.
  apply (github_feature_iff_task_label Sample.widgets
           (Sample.issue 3 (JStr "Three") JNull
              [Sample.label "bug"; Sample.label "task"]));
    reflexivity.
Defined.

(** ** Github: the patch flag *)

(** C7, as the code has it: a normalized github issue has [patch]
    ["y"] when the [html_url] of its [pull_request] object is truthy
    (a non-empty text) and ["n"] when it is not (null or empty); an
    issue whose [pull_request] cannot be read is not normalized at
    all. *)
Theorem github_patch_from_pull_request_url (self : Github.t) (issue : json) :
  (forall rec, Github.normalize self issue = Ok rec ->
     exists pr url,
       Py.getitem issue "pull_request" = Ok pr /\
       Py.getitem pr "html_url" = Ok url /\
       Dict.get "patch" rec
       = Some (JStr (if Py.truthy url then "y" else "n"))) /\
  (forall x, Py.getitem issue "pull_request" = Raise x ->
     exists x', Github.normalize self issue = Raise x').
Proof.
  assert (Hok : forall rec, Github.normalize self issue = Ok rec ->
     exists pr url,
       Py.getitem issue "pull_request" = Ok pr /\
       Py.getitem pr "html_url" = Ok url /\
       Dict.get "patch" rec
       = Some (JStr (if Py.truthy url then "y" else "n"))).
  { intros rec H. unfold Github.normalize in H. invert_binds H.
    injection H as <-. exists v5, v6. auto. }
  split; [exact Hok|].
  intros x Hx. destruct (Github.normalize self issue) as [rec|x'] eqn:En.
  - destruct (Hok rec eq_refl) as (pr & url & Hpr & _). congruence.
  - eauto.
Qed.

Lemma github_patch_from_pull_request_url_witness :
  exists pr url,
    Py.getitem (Sample.issue 3 (JStr "Three") (JStr "https://github.com/acme/widgets/pull/3") [])
      "pull_request" = Ok pr /\
    Py.getitem pr "html_url" = Ok url /\
    Dict.get "patch"
      [("source", JStr "github"); ("id", JNum 3);
       ("url", JStr "https://github.com/acme/widgets/issues/1");
       ("assigned", JStr "nobody"); ("status", JStr "open");
       ("title", JStr "Three"); ("product", JStr "widgets");
       ("module", JStr "widgets"); ("patch", JStr "y");
       ("feature", JStr "n")]
    = Some (JStr (if Py.truthy url then "y" else "n")).
Proof.
  apply (proj1 (github_patch_from_pull_request_url Sample.widgets
                  (Sample.issue 3 (JStr "Three")
                     (JStr "https://github.com/acme/widgets/pull/3") []))).
  reflexivity.
Defined.

(** C7 as stated fails: an issue with no pull-request linkage at all
    does not normalize to [patch = "n"]; reading [pull_request] raises
    [KeyError] and no record is produced. *)
Lemma github_patch_missing_pull_request :
  Py.getitem Sample.issue_without_pull_request "pull_request" = Raise KeyError /\
  Github.normalize Sample.widgets Sample.issue_without_pull_request
  = Raise KeyError /\
  ~ (exists rec,
       Github.normalize Sample.widgets Sample.issue_without_pull_request = Ok rec /\
       Dict.get "patch" rec = Some (JStr "n")).
Proof.
  split; [reflexivity|]. split; [reflexivity|].
  intros (rec & H & _). discriminate H.
Qed.

(** ** Bugzilla: the patch flag *)

(** C9: the [patch] field of a normalized bug is ["y"] exactly when the
    raw bug has an [attachments] key, whatever its value, and ["n"]
    when the key is absent. *)
Theorem bugzilla_patch_iff_attachments_key (e : env) (issue : json) (rec : dict) :
  Bugzilla.normalize e issue = Ok rec ->
  exists kvs, issue = JObj kvs /\
    (Dict.get "patch" rec = Some (JStr "y") <->
     exists v, Dict.get "attachments" kvs = Some v) /\
    (Dict.get "patch" rec = Some (JStr "n") <->
     Dict.get "attachments" kvs = None).
Proof.
  intros H. unfold Bugzilla.normalize in H. invert_binds H.
  injection H as <-.
  destruct (getitem_ok_obj _ _ _ E) as (kvs & -> & _).
  exists kvs. split; [reflexivity|].
  simpl in E8. injection E8 as <-.
  change (Dict.get "patch" _)
    with (Some (JStr (if Dict.has "attachments" kvs then "y" else "n"))).
  unfold Dict.has. destruct (Dict.get "attachments" kvs) as [w|].
  - split; split; try discriminate; eauto.
  - split; split; try discriminate; auto. intros (w & Hw). discriminate.
Qed.

Lemma bugzilla_patch_iff_attachments_key_witness :
  exists kvs, Sample.bug 7 [("attachments", JList [])] = JObj kvs /\
    (Dict.get "patch"
       [("source", JStr "bugzilla"); ("id", JNum 7);
        ("url", JStr "https://bugzilla.mozilla.org/show_bug.cgi?id=7");
        ("assigned", JStr "Bob"); ("status", JStr "closed");
        ("title", JStr "Toolbar flickers"); ("product", JStr "Firefox");
        ("module", JStr "Toolbars"); ("patch", JStr "y");
        ("feature", JStr "y")] = Some (JStr "y") <->
     exists v, Dict.get "attachments" kvs = Some v) /\
    (Dict.get "patch"
       [("source", JStr "bugzilla"); ("id", JNum 7);
        ("url", JStr "https://bugzilla.mozilla.org/show_bug.cgi?id=7");
        ("assigned", JStr "Bob"); ("status", JStr "closed");
        ("title", JStr "Toolbar flickers"); ("product", JStr "Firefox");
        ("module", JStr "Toolbars"); ("patch", JStr "y");
        ("feature", JStr "y")] = Some (JStr "n") <->
     Dict.get "attachments" kvs = None).
Proof.
  apply (bugzilla_patch_iff_attachments_key Sample.world
           (Sample.bug 7 [("attachments", JList [])])).
  reflexivity.
Defined.

(** ** Text: appending *)

Lemma append_nil_r (s : string) : s ++ EmptyString = s.
Proof. induction s; simpl; congruence. Qed.

Lemma append_assoc (a b c : string) : (a ++ b) ++ c = a ++ (b ++ c).
Proof. induction a; simpl; congruence. Qed.

Lemma length_append (a b : string) :
  String.length (a ++ b) = String.length a + String.length b.
Proof. induction a; simpl; congruence. Qed.

Lemma append_inv_head (a b c : string) : a ++ b = a ++ c -> b = c.
Proof.
  induction a as [|x a IH]; simpl; intros H; [exact H|].
  injection H as H. auto.
Qed.

Lemma join_snoc (sep : string) (l : list string) (x : string) :
  Text.join sep (l ++ [x])%list
  = match l with
    | [] => x
    | _ => Text.join sep l ++ sep ++ x
    end.
Proof.
  induction l as [|a l IH]; [reflexivity|].
  destruct l as [|b l]; [reflexivity|].
  change (Text.join sep ((a :: b :: l) ++ [x])%list)
    with (a ++ sep ++ Text.join sep ((b :: l) ++ [x])%list).
  rewrite IH.
  change (Text.join sep (a :: b :: l)) with (a ++ sep ++ Text.join sep (b :: l)).
  now rewrite !append_assoc.
Qed.

(** ** Dictionaries *)

Section DictFacts.
Context {V : Type}.
Implicit Types (d : list (string * V)) (k : string).

Lemma get_None_not_In k d : Dict.get k d = None -> ~ In k (Dict.keys d).
Proof.
  induction d as [|[k' v] d IH]; simpl; intros H; [tauto|].
  destruct (String.eqb_spec k' k) as [->|Hne]; [discriminate|].
  intros [Heq|Hin]; [contradiction | exact (IH H Hin)].
Qed.

Lemma not_In_get_None k d : ~ In k (Dict.keys d) -> Dict.get k d = None.
Proof.
  induction d as [|[k' v] d IH]; simpl; intros H; [reflexivity|].
  destruct (String.eqb_spec k' k) as [->|Hne]; [tauto|]. apply IH; tauto.
Qed.


Lemma get_Some_In k (v : V) d : Dict.get k d = Some v -> In (k, v) d.
Proof.
  induction d as [|[k' v'] d IH]; simpl; [discriminate|].
  destruct (String.eqb_spec k' k) as [->|Hne]; intros H.
  - injection H as ->. auto.
  - auto.
Qed.

Lemma set_absent k (v : V) d :
  Dict.has k d = false -> Dict.set k v d = (d ++ [(k, v)])%list.
Proof.
  unfold Dict.has. induction d as [|[k' v'] d IH]; simpl; [reflexivity|].
  destruct (String.eqb k' k); [discriminate|]. intros H. now rewrite IH.
Qed.

Lemma get_set k k' (v : V) d :
  Dict.get k (Dict.set k' v d)
  = if String.eqb k' k then Some v else Dict.get k d.
Proof.
  induction d as [|[k1 v1] d IH]; simpl.
  - destruct (String.eqb k' k); reflexivity.
  - destruct (String.eqb_spec k1 k') as [->|Hne]; simpl.
    + destruct (String.eqb k' k); reflexivity.
    + rewrite IH. destruct (String.eqb_spec k' k) as [->|Hne'].
      * apply String.eqb_neq in Hne. now rewrite Hne.
      * reflexivity.
Qed.

End DictFacts.

(** ** The query string *)

Lemma params_keys (e : env) (query : dict) (k : string) :
  In k (map fst (Urllib.params e query)) -> In k (Dict.keys query).
Proof.
  unfold Urllib.params. induction query as [|[k' v] q IH]; simpl; [tauto|].
  rewrite map_app, in_app_iff. intros [H|H]; [left | right; auto].
  apply in_map_iff in H. destruct H as ([k1 s] & <- & Hin). simpl.
  destruct v; simpl in Hin;
    try (destruct Hin as [Heq|[]]; injection Heq as <- _; reflexivity);
    apply in_map_iff in Hin; destruct Hin as (? & Heq & _);
    injection Heq as <- _; reflexivity.
Qed.

Lemma params_app (e : env) (q1 q2 : dict) :
  Urllib.params e (q1 ++ q2)%list
  = (Urllib.params e q1 ++ Urllib.params e q2)%list.
Proof. apply flat_map_app. Qed.

Lemma urlencode_grows (e : env) (query : dict) (k s : string) :
  String.length (Urllib.urlencode e query)
  < String.length (Urllib.urlencode e (query ++ [(k, JStr s)])%list).
Proof.
  unfold Urllib.urlencode. rewrite params_app, map_app. simpl.
  rewrite join_snoc.
  destruct (map Urllib.encode_param (Urllib.params e query)) as [|p ps] eqn:E.
  - unfold Urllib.encode_param. simpl. rewrite !length_append. simpl. lia.
  - rewrite !length_append. simpl. lia.
Qed.

(** C8: the query of the URL [Bugzilla.get_issues] requests is the
    encoding of the filters the source was constructed with, a list value
    giving its key once per element; the [include_fields] selection
    computed into the local copy is not part of it. *)
Theorem bugzilla_query_is_constructor_filters (e : env) (self : Bugzilla.t) :
  Bugzilla.request_url e self
  = Bugzilla.API_BASE ++ "?" ++ Urllib.urlencode e (Bugzilla.filters self) /\
  (forall x, urlopen e (Bugzilla.API_BASE ++ "?" ++
                        Urllib.urlencode e (Bugzilla.filters self)) = Raise x ->
             Bugzilla.get_issues e self = ([], Raised x)) /\
  (forall k vals rest,
     Bugzilla.filters self = (k, JList (map JStr vals)) :: rest ->
     Urllib.params e (Bugzilla.filters self)
     = (map (pair k) vals ++ Urllib.params e rest)%list) /\
  (Dict.has "include_fields" (Bugzilla.filters self) = false ->
   ~ In "include_fields" (map fst (Urllib.params e (Bugzilla.filters self))) /\
   Bugzilla.request_url e self
   <> Bugzilla.API_BASE ++ "?" ++
      Urllib.urlencode e
        (Dict.set "include_fields" (JStr Bugzilla.include_fields)
           (Bugzilla.filters self))).
Proof.
  split; [reflexivity|]. split; [|split].
  - intros x Hx. unfold Bugzilla.get_issues, Bugzilla.request_url.
    now rewrite Hx.
  - intros k vals rest ->. unfold Urllib.params. simpl. f_equal.
    rewrite map_map. apply map_ext. reflexivity.
  - intros Hno. split.
    + intros Hin. apply params_keys in Hin. revert Hin.
      apply get_None_not_In. unfold Dict.has in Hno.
      destruct (Dict.get "include_fields" (Bugzilla.filters self));
        [discriminate | reflexivity].
    + unfold Bugzilla.request_url. rewrite (set_absent _ _ _ Hno).
      intros Heq. apply append_inv_head in Heq.
      apply (append_inv_head "?") in Heq.
      pose proof (urlencode_grows e (Bugzilla.filters self)
                    "include_fields" Bugzilla.include_fields) as Hlt.
      rewrite <- Heq in Hlt. lia.
Qed.

Lemma bugzilla_query_is_constructor_filters_witness :
  ~ In "include_fields"
      (map fst (Urllib.params Sample.world (Bugzilla.filters Sample.new_bugs))) /\
  Bugzilla.request_url Sample.world Sample.new_bugs
  <> Bugzilla.API_BASE ++ "?" ++
     Urllib.urlencode Sample.world
       (Dict.set "include_fields" (JStr Bugzilla.include_fields)
          (Bugzilla.filters Sample.new_bugs)).
Proof.
  apply (proj2 (proj2 (proj2
           (bugzilla_query_is_constructor_filters Sample.world Sample.new_bugs)))).
  reflexivity.
Defined.

(** ** Text: splitting *)

Lemma contains_count (c : ascii) (s : string) :
  Text.contains c s = negb (Nat.eqb (Text.count c s) 0).
Proof.
  induction s as [|a s IH]; simpl; [reflexivity|].
  destruct (Ascii.eqb a c); simpl; auto.
Qed.

Lemma split_length (c : ascii) (s : string) :
  List.length (Text.split c s) = S (Text.count c s).
Proof.
  induction s as [|a s IH]; simpl; [reflexivity|].
  destruct (Ascii.eqb a c); simpl; [now rewrite IH|].
  destruct (Text.split c s); simpl in *; [discriminate | exact IH].
Qed.

Lemma split_parts_clean (c : ascii) (s p : string) :
  In p (Text.split c s) -> Text.contains c p = false.
Proof.
  revert p; induction s as [|a s IH]; simpl; intros p H.
  - destruct H as [<-|[]]. reflexivity.
  - destruct (Ascii.eqb a c) eqn:Eac.
    + destruct H as [<-|H]; [reflexivity | auto].
    + destruct (Text.split c s) as [|w ws] eqn:Es.
      * destruct H as [<-|[]]. simpl. now rewrite Eac.
      * destruct H as [<-|H].
        -- simpl. rewrite Eac. simpl. apply IH. now left.
        -- apply IH. now right.
Qed.

Lemma split_clean (c : ascii) (s : string) :
  Text.contains c s = false -> Text.split c s = [s].
Proof.
  induction s as [|a s IH]; simpl; [reflexivity|].
  destruct (Ascii.eqb a c); simpl; [discriminate|].
  intros H. now rewrite (IH H).
Qed.

(** A text with one [c] splits into what is left and what is right of
    it. *)
Lemma split_once (c : ascii) (s : string) :
  Text.count c s = 1 ->
  Text.split c s = [Cut.before c s; Cut.after c s].
Proof.
  induction s as [|a s IH]; simpl; [discriminate|].
  destruct (Ascii.eqb a c) eqn:Eac; simpl; intros H.
  - injection H as H. rewrite split_clean; [reflexivity|].
    rewrite contains_count, H. reflexivity.
  - now rewrite (IH H).
Qed.

(** ** The source-definition parser *)

Lemma parse_bit_positional (st : list string * kwargs_t) (bit : string) :
  Grammar.is_assignment bit = false ->
  parse_bit st bit = Ok ((fst st ++ [bit])%list, snd st).
Proof.
  unfold parse_bit, Grammar.is_assignment. destruct st as [args kw].
  intros ->. reflexivity.
Qed.

Lemma parse_bit_assignment (st : list string * kwargs_t) (bit : string) :
  Text.count "=" bit = 1 ->
  parse_bit st bit
  = Ok (fst st, append_value (Cut.before "=" bit) (Cut.after "=" bit)
                  (snd st)).
Proof.
  unfold parse_bit. destruct st as [args kw]. intros H.
  rewrite contains_count, H, (split_once _ _ H). reflexivity.
Qed.

Lemma parse_bit_two_equals (st : list string * kwargs_t) (bit : string) :
  1 < Text.count "=" bit -> parse_bit st bit = Raise ValueError.
Proof.
  unfold parse_bit. destruct st as [args kw]. intros H.
  rewrite contains_count.
  destruct (Nat.eqb_spec (Text.count "=" bit) 0) as [Hz|_]; [lia|]. simpl.
  pose proof (split_length "=" bit) as Hl.
  destruct (Text.split "=" bit) as [|a [|b [|c l]]]; simpl in Hl;
    try reflexivity; lia.
Qed.

Lemma parse_bit_raises_ValueError (st : list string * kwargs_t) (bit : string)
  (x : exn) :
  parse_bit st bit = Raise x -> x = ValueError.
Proof.
  unfold parse_bit. destruct st as [args kw].
  destruct (Text.contains "=" bit); [|discriminate].
  destruct (Text.split "=" bit) as [|a [|b [|c l]]]; intros H;
    try discriminate; now injection H.
Qed.

Lemma foldM_parse_bit_two_equals (bits : list string) (seg : string) :
  In seg bits -> 1 < Text.count "=" seg ->
  forall st, foldM parse_bit bits st = Raise ValueError.
Proof.
  induction bits as [|b bits IH]; simpl; intros Hin Hc st; [destruct Hin|].
  destruct (parse_bit st b) as [st'|x] eqn:Eb; simpl.
  - destruct Hin as [->|Hin]; [|auto].
    rewrite (parse_bit_two_equals _ _ Hc) in Eb. discriminate.
  - now rewrite (parse_bit_raises_ValueError _ _ _ Eb).
Qed.

Lemma In_set {V : Type} (k k' : string) (v v' : V) (d : list (string * V)) :
  In (k', v') (Dict.set k v d) -> (k', v') = (k, v) \/ In (k', v') d.
Proof.
  induction d as [|[k1 v1] d IH]; simpl.
  - intros [H|[]]; auto.
  - destruct (String.eqb_spec k1 k) as [->|Hne]; simpl.
    + intros [H|H]; auto.
    + intros [H|H]; auto. destruct (IH H); auto.
Qed.

Lemma In_remove {V : Type} (k : string) (x : string * V) (d : list (string * V)) :
  In x (Dict.remove k d) -> In x d.
Proof.
  induction d as [|[k1 v1] d IH]; simpl; [tauto|].
  destruct (String.eqb k1 k); simpl; intros H; [auto|].
  destruct H; auto.
Qed.

Lemma parse_bit_clean (st st' : list string * kwargs_t) (bit : string) :
  parse_bit st bit = Ok st' -> clean_values (snd st) -> clean_values (snd st').
Proof.
  unfold parse_bit. destruct st as [args kw].
  destruct (Text.contains "=" bit).
  - destruct (Text.split "=" bit) as [|key [|val [|c l]]] eqn:Es;
      try discriminate.
    intros H Hc. injection H as <-. simpl in *.
    intros k vals Hin. unfold append_value in Hin.
    apply In_set in Hin. destruct Hin as [Heq|Hin]; [|eauto].
    injection Heq as -> ->. apply Forall_app. split.
    + destruct (Dict.get key kw) as [old|] eqn:Eg; [|constructor].
      apply (Hc key). now apply get_Some_In.
    + constructor; [|constructor].
      apply (split_parts_clean "=" bit). rewrite Es. simpl. auto.
  - intros H Hc. injection H as <-. exact Hc.
Qed.

Lemma foldM_parse_bit_clean (bits : list string) :
  forall st st', foldM parse_bit bits st = Ok st' ->
                 clean_values (snd st) -> clean_values (snd st').
Proof.
  induction bits as [|b bits IH]; simpl; intros st st' H Hc.
  - injection H as <-. exact Hc.
  - invert_binds H. eapply IH; [exact H|]. eapply parse_bit_clean; eauto.
Qed.

Lemma In_kwargs_dict (k : string) (v : json) (kwargs : kwargs_t) :
  In (k, v) (kwargs_dict kwargs) ->
  exists vals, v = JList (map JStr vals) /\ In (k, vals) kwargs.
Proof.
  unfold kwargs_dict. intros H. apply in_map_iff in H.
  destruct H as ([k' vals] & Heq & Hin). simpl in Heq.
  injection Heq as -> <-. eauto.
Qed.

Lemma construct_filters (cls : source_class) (args : list json) (kwargs : dict)
  (src : source) (x : string * json) :
  construct cls args kwargs = Ok src -> In x (source_filters src) -> In x kwargs.
Proof.
  destruct cls; simpl; intros H; invert_binds H; injection H as <-; simpl.
  - unfold Github.init in E.
    destruct (Dict.has "self" kwargs); [discriminate|].
    destruct args as [|u [|r [|a l]]]; try discriminate.
    + destruct (Dict.get "user" kwargs); [|discriminate].
      destruct (Dict.get "repo" kwargs); [|discriminate].
      injection E as <-. simpl. intros H. now do 2 apply In_remove in H.
    + destruct (Dict.has "user" kwargs); [discriminate|].
      destruct (Dict.get "repo" kwargs); [|discriminate].
      injection E as <-. simpl. apply In_remove.
    + destruct (Dict.has "user" kwargs || Dict.has "repo" kwargs);
        [discriminate|].
      injection E as <-. simpl. auto.
  - unfold Bugzilla.init in E.
    destruct (Dict.has "self" kwargs); [discriminate|].
    destruct args; [|discriminate]. injection E as <-. auto.
Qed.

(** C10: a definition with a segment holding more than one [=] is
    rejected, by [KeyError] when the type tag is not registered and by
    [ValueError] from the unpacking otherwise; so no accepted definition
    gives a filter a value containing [=]. *)
Theorem parse_source_rejects_second_equals (definition : string) :
  (forall seg, In seg (Text.split ":" definition) ->
               1 < Text.count "=" seg ->
               parse_source definition = Raise KeyError \/
               parse_source definition = Raise ValueError) /\
  (forall src k v,
     parse_source definition = Ok src ->
     Dict.get k (source_filters src) = Some v ->
     exists vals, v = JList (map JStr vals) /\
                  Forall (fun s => Text.contains "=" s = false) vals).
Proof.
  unfold parse_source. split.
  - intros seg Hin Hc.
    destruct (Text.split ":" definition) as [|tag bits]; [destruct Hin|].
    destruct (Dict.get tag SOURCE_TYPES) as [cls|] eqn:Et; [|now left].
    right. destruct Hin as [->|Hin].
    + exfalso. apply get_Some_In in Et.
      destruct Et as [H|[H|[]]]; injection H as <- _; simpl in Hc; lia.
    + now rewrite (foldM_parse_bit_two_equals bits seg Hin Hc).
  - intros src k v H Hg.
    destruct (Text.split ":" definition) as [|tag bits]; [discriminate|].
    destruct (Dict.get tag SOURCE_TYPES) as [cls|]; [|discriminate].
    invert_binds H. apply get_Some_In in Hg.
    apply (construct_filters _ _ _ _ _ H) in Hg.
    apply In_kwargs_dict in Hg. destruct Hg as (vals & -> & Hin).
    exists vals. split; [reflexivity|].
    apply (foldM_parse_bit_clean _ _ _ E) in Hin; [exact Hin|].
    intros ? ? [].
Qed.

Lemma parse_source_rejects_second_equals_witness :
  parse_source "bugzilla:status=a=b" = Raise KeyError \/
  parse_source "bugzilla:status=a=b" = Raise ValueError.
Proof.
  apply (proj1 (parse_source_rejects_second_equals "bugzilla:status=a=b")
           "status=a=b").
  - simpl. auto.
  - simpl. lia.
Defined.

Lemma foldM_parse_bit_valid (bits : list string) :
  forallb (fun b => Nat.leb (Text.count "=" b) 1) bits = true ->
  forall st,
    foldM parse_bit bits st
    = Ok ((fst st ++ Grammar.positional bits)%list,
          file_assignments (Grammar.assignments bits) (snd st)).
Proof.
  induction bits as [|b bits IH]; simpl; intros Hv st.
  - rewrite app_nil_r. now destruct st.
  - apply andb_true_iff in Hv. destruct Hv as [Hb Hv].
    apply Nat.leb_le in Hb.
    unfold Grammar.positional, Grammar.assignments. simpl.
    destruct (Grammar.is_assignment b) eqn:Ea; simpl.
    + assert (Hc : Text.count "=" b = 1).
      { unfold Grammar.is_assignment in Ea. rewrite contains_count in Ea.
        destruct (Nat.eqb_spec (Text.count "=" b) 0); [discriminate | lia]. }
      rewrite (parse_bit_assignment _ _ Hc). simpl. now rewrite (IH Hv).
    + rewrite (parse_bit_positional _ _ Ea). simpl. rewrite (IH Hv). simpl.
      now rewrite <- app_assoc.
Qed.

Lemma get_file_assignments (key : string) (assigns : list (string * string)) :
  forall kwargs,
    Dict.get key (file_assignments assigns kwargs)
    = let vals := map snd (filter (fun kv => String.eqb (fst kv) key) assigns) in
      match Dict.get key kwargs with
      | Some old => Some (old ++ vals)%list
      | None => match vals with [] => None | _ => Some vals end
      end.
Proof.
  unfold file_assignments.
  induction assigns as [|[k1 v1] rest IH]; simpl; intros kwargs.
  - destruct (Dict.get key kwargs); [now rewrite app_nil_r | reflexivity].
  - rewrite IH. unfold append_value. rewrite get_set.
    destruct (String.eqb_spec k1 key) as [->|Hne]; simpl.
    + destruct (Dict.get key kwargs); simpl; now rewrite <- ?app_assoc.
    + reflexivity.
Qed.

Lemma get_kwargs_dict (key : string) (kwargs : kwargs_t) :
  Dict.get key (kwargs_dict kwargs)
  = option_map (fun vals => JList (map JStr vals)) (Dict.get key kwargs).
Proof.
  induction kwargs as [|[k vals] kw IH]; simpl; [reflexivity|].
  destruct (String.eqb k key); [reflexivity | exact IH].
Qed.

Lemma no_parameter_assignment (names : list string)
  (assigns : list (string * string)) (key : string) :
  forallb (fun kv => negb (existsb (String.eqb (fst kv)) names)) assigns = true ->
  In key names ->
  filter (fun kv => String.eqb (fst kv) key) assigns = [].
Proof.
  intros Hall Hin. induction assigns as [|[k v] rest IH]; simpl in *;
    [reflexivity|].
  apply andb_true_iff in Hall. destruct Hall as [Hk Hall].
  destruct (String.eqb_spec k key) as [->|Hne]; [|auto].
  exfalso. apply negb_true_iff in Hk.
  assert (Hex : existsb (String.eqb key) names = true).
  { apply existsb_exists. exists key. split; [exact Hin | apply String.eqb_refl]. }
  congruence.
Qed.

(** The filters of a source built from well-formed segments. *)
Lemma get_parsed_filters (key : string) (bits : list string) :
  Dict.get key
    (kwargs_dict (file_assignments (Grammar.assignments bits) []))
  = match Grammar.values_of key bits with
    | [] => None
    | vals => Some (JList (map JStr vals))
    end.
Proof.
  rewrite get_kwargs_dict, get_file_assignments. simpl.
  unfold Grammar.values_of.
  now destruct (map snd (filter _ (Grammar.assignments bits))).
Qed.

Lemma has_parsed_parameter (names : list string) (key : string)
  (bits : list string) :
  forallb (fun kv => negb (existsb (String.eqb (fst kv)) names))
    (Grammar.assignments bits) = true ->
  In key names ->
  Dict.has key
    (kwargs_dict (file_assignments (Grammar.assignments bits) [])) = false.
Proof.
  intros Hall Hin. unfold Dict.has. rewrite get_parsed_filters.
  unfold Grammar.values_of.
  now rewrite (no_parameter_assignment _ _ _ Hall Hin).
Qed.



(** ** Text: stripping *)

Section Strip.
Variable p : ascii -> bool.

Lemma count_lstrip (c : ascii) (s : string) :
  p c = false -> Text.count c (Text.lstrip p s) = Text.count c s.
Proof.
  intros Hc. induction s as [|a s IH]; simpl; [reflexivity|].
  destruct (p a) eqn:Ea; [|reflexivity].
  destruct (Ascii.eqb_spec a c) as [->|_]; [congruence | exact IH].
Qed.

Lemma count_rstrip (c : ascii) (s : string) :
  p c = false -> Text.count c (Text.rstrip p s) = Text.count c s.
Proof.
  intros Hc. induction s as [|a s IH]; simpl; [reflexivity|].
  destruct (Text.rstrip p s) as [|b r] eqn:Er.
  - simpl in IH. rewrite <- IH. destruct (p a) eqn:Ea; simpl.
    + destruct (Ascii.eqb_spec a c) as [->|_]; [congruence | reflexivity].
    + reflexivity.
  - simpl. simpl in IH. now rewrite IH.
Qed.

Lemma count_strip_with (c : ascii) (s : string) :
  p c = false -> Text.count c (Text.strip_with p s) = Text.count c s.
Proof.
  intros Hc. unfold Text.strip_with.
  now rewrite count_rstrip, count_lstrip.
Qed.

Lemma rstrip_keep (s : string) (a : ascii) :
  p a = false -> Text.rstrip p (s ++ Text.str1 a) = s ++ Text.str1 a.
Proof.
  intros Ha. induction s as [|x s IH]; simpl.
  - now rewrite Ha.
  - rewrite IH. now destruct s.
Qed.

Lemma rstrip_drop (s : string) (a : ascii) :
  p a = true -> Text.rstrip p (s ++ Text.str1 a) = Text.rstrip p s.
Proof.
  intros Ha. induction s as [|x s IH]; simpl.
  - now rewrite Ha.
  - now rewrite IH.
Qed.

Lemma rstrip_last (s : string) :
  (forall a, LinkHeader.last_char s = Some a -> p a = false) ->
  Text.rstrip p s = s.
Proof.
  induction s as [|x s IH]; [reflexivity|].
  intros H. simpl. destruct s as [|y s].
  - simpl. now rewrite (H x eq_refl).
  - rewrite IH; [reflexivity|]. exact H.
Qed.

End Strip.

Lemma is_space_semicolon : Text.is_space ";" = false.
Proof. reflexivity. Qed.

(** ** The Link header: one entry *)

Lemma link_pair_two_parts (en : string) :
  LinkHeader.two_parts en = true ->
  Github.link_pair en = Ok (LinkHeader.relation en, LinkHeader.target en).
Proof.
  unfold LinkHeader.two_parts, Github.link_pair. intros H.
  apply Nat.eqb_eq in H.
  rewrite split_once; [reflexivity|].
  unfold Text.strip. now rewrite count_strip_with.
Qed.

Lemma link_pair_other (en : string) :
  LinkHeader.two_parts en = false -> Github.link_pair en = Raise ValueError.
Proof.
  unfold LinkHeader.two_parts, Github.link_pair. intros H.
  apply Nat.eqb_neq in H.
  assert (Hl : List.length (rev (map Text.strip
                  (Text.split ";" (Text.strip en)))) <> 2).
  { rewrite length_rev, length_map, split_length. unfold Text.strip.
    rewrite count_strip_with by reflexivity. lia. }
  destruct (rev _) as [|a [|b [|c l]]]; simpl in Hl; try reflexivity; lia.
Qed.

Lemma link_pair_raises_ValueError (en : string) (x : exn) :
  Github.link_pair en = Raise x -> x = ValueError.
Proof.
  unfold Github.link_pair.
  destruct (rev _) as [|a [|b [|c l]]]; intros H; try discriminate;
    now injection H.
Qed.

Lemma mapM_link_pair_two_parts (entries : list string) :
  forallb LinkHeader.two_parts entries = true ->
  mapM Github.link_pair entries
  = Ok (map (fun en => (LinkHeader.relation en, LinkHeader.target en)) entries).
Proof.
  induction entries as [|en rest IH]; simpl; intros H; [reflexivity|].
  apply andb_true_iff in H. destruct H as [Hen Hrest].
  rewrite (link_pair_two_parts _ Hen). simpl. now rewrite (IH Hrest).
Qed.

Lemma mapM_link_pair_other (entries : list string) :
  forallb LinkHeader.two_parts entries = false ->
  mapM Github.link_pair entries = Raise ValueError.
Proof.
  induction entries as [|en rest IH]; simpl; intros H; [discriminate|].
  destruct (LinkHeader.two_parts en) eqn:Hen; simpl in H.
  - rewrite (link_pair_two_parts _ Hen). simpl. now rewrite (IH H).
  - now rewrite (link_pair_other _ Hen).
Qed.

(** [dict(pairs)] looked up: the last pair with the key decides. *)
Lemma get_app {V : Type} (k : string) (d1 d2 : list (string * V)) :
  Dict.get k (d1 ++ d2)%list
  = match Dict.get k d1 with
    | Some v => Some v
    | None => Dict.get k d2
    end.
Proof.
  induction d1 as [|[k' v] d1 IH]; simpl; [reflexivity|].
  destruct (String.eqb k' k); [reflexivity | exact IH].
Qed.

Lemma get_fold_set {V : Type} (k : string) (pairs : list (string * V)) :
  forall d,
    Dict.get k (fold_left (fun d kv => Dict.set (fst kv) (snd kv) d) pairs d)
    = match Dict.get k (rev pairs) with
      | Some v => Some v
      | None => Dict.get k d
      end.
Proof.
  induction pairs as [|[k' v] pairs IH]; simpl; intros d; [reflexivity|].
  rewrite IH, get_app, get_set. simpl.
  destruct (Dict.get k (rev pairs)); [reflexivity|].
  now destruct (String.eqb k' k).
Qed.

Lemma get_of_pairs {V : Type} (k : string) (pairs : list (string * V)) :
  Dict.get k (Dict.of_pairs pairs) = Dict.get k (rev pairs).
Proof.
  unfold Dict.of_pairs. rewrite get_fold_set. simpl.
  now destruct (Dict.get k (rev pairs)).
Qed.

(** ** The next-page link *)

Lemma rel_next_spec : Github.rel_next = LinkHeader.rel "next".
Proof. reflexivity. Qed.

Lemma get_no_key {V : Type} (k : string) (d : list (string * V)) :
  (forall x, In x d -> fst x <> k) -> Dict.get k d = None.
Proof.
  intros H. apply not_In_get_None. intros Hin.
  apply in_map_iff in Hin. destruct Hin as (x & Hx & Hin).
  exact (H x Hin Hx).
Qed.

Lemma next_url_absent : Github.next_url None = Ok EmptyString.
Proof. reflexivity. Qed.

Lemma next_url_malformed (header : string) :
  forallb LinkHeader.two_parts (LinkHeader.entries_of header) = false ->
  Github.next_url (Some header) = Raise ValueError.
Proof.
  intros H. unfold Github.next_url, LinkHeader.entries_of in *.
  now rewrite (mapM_link_pair_other _ H).
Qed.

Lemma next_url_no_next (header : string) :
  forallb LinkHeader.two_parts (LinkHeader.entries_of header) = true ->
  (forall en, In en (LinkHeader.entries_of header) ->
              LinkHeader.relation en <> LinkHeader.rel "next") ->
  Github.next_url (Some header) = Ok EmptyString.
Proof.
  intros H Hrel. unfold Github.next_url, LinkHeader.entries_of in *.
  rewrite (mapM_link_pair_two_parts _ H). simpl.
  rewrite get_of_pairs, get_no_key; [reflexivity|].
  intros x Hx. apply in_rev, in_map_iff in Hx.
  destruct Hx as (en & <- & Hen). simpl. rewrite rel_next_spec. auto.
Qed.

Lemma fetch_pages_empty_url (e : env) (fuel : nat) :
  Github.fetch_pages e fuel EmptyString = ([], Done).
Proof. destruct fuel; reflexivity. Qed.

(** One turn of the [while url:] loop on a page that can be read. *)
Lemma fetch_pages_step (e : env) (fuel : nat) (url : string) (resp : response)
  (data : json) (issues : list json) :
  url <> EmptyString ->
  urlopen e url = Ok resp ->
  body resp = Some data ->
  Py.iter data = Ok issues ->
  Github.fetch_pages e (S fuel) url
  = match Github.next_url (link_header resp) with
    | Raise x => (issues, Raised x)
    | Ok url' =>
        let '(more, o) := Github.fetch_pages e fuel url' in
        ((issues ++ more)%list, o)
    end.
Proof.
  intros Hurl Hopen Hbody Hiter. simpl.
  apply String.eqb_neq in Hurl. rewrite Hurl, Hopen, Hbody, Hiter.
  reflexivity.
Qed.

(** C5, as the code has it: when the Link header is absent, or each of
    its comma-separated entries holds exactly one [;] and none has the
    relation [rel="next"], pagination stops silently after the page's
    issues; a header with an entry that does not hold exactly one [;]
    makes the header parsing raise [ValueError] once the page's issues
    have been yielded. *)
Theorem github_link_header_parsing (e : env) (fuel : nat) (url : string)
  (resp : response) (data : json) (issues : list json) :
  url <> EmptyString ->
  urlopen e url = Ok resp ->
  body resp = Some data ->
  Py.iter data = Ok issues ->
  (link_header resp = None ->
   Github.next_url (link_header resp) = Ok EmptyString /\
   Github.fetch_pages e (S fuel) url = (issues, Done)) /\
  (forall header,
     link_header resp = Some header ->
     forallb LinkHeader.two_parts (LinkHeader.entries_of header) = true ->
     (forall en, In en (LinkHeader.entries_of header) ->
                 LinkHeader.relation en <> LinkHeader.rel "next") ->
     Github.next_url (link_header resp) = Ok EmptyString /\
     Github.fetch_pages e (S fuel) url = (issues, Done)) /\
  (forall header,
     link_header resp = Some header ->
     forallb LinkHeader.two_parts (LinkHeader.entries_of header) = false ->
     Github.next_url (link_header resp) = Raise ValueError /\
     Github.fetch_pages e (S fuel) url = (issues, Raised ValueError)).
Proof.
  intros Hurl Hopen Hbody Hiter.
  rewrite (fetch_pages_step e fuel url resp data issues Hurl Hopen Hbody Hiter).
  split; [|split].
  - intros ->. split; [reflexivity|].
    rewrite next_url_absent, fetch_pages_empty_url. now rewrite app_nil_r.
  - intros header -> H2 Hrel. rewrite (next_url_no_next _ H2 Hrel).
    split; [reflexivity|].
    rewrite fetch_pages_empty_url. now rewrite app_nil_r.
  - intros header -> H2. rewrite (next_url_malformed _ H2). auto.
Qed.

Lemma github_link_header_parsing_witness :
  Github.next_url (link_header (Sample.page [Sample.issue 3 (JStr "Three") JNull []] None))
  = Ok EmptyString /\
  Github.fetch_pages Sample.world 1 Sample.second_page_url
  = ([Sample.issue 3 (JStr "Three")
        (JStr "https://github.com/acme/widgets/pull/3") [Sample.label "task"]],
     Done).
Proof.
  refine (proj1 (github_link_header_parsing Sample.world 0
           Sample.second_page_url
           (Sample.page [Sample.issue 3 (JStr "Three")
                           (JStr "https://github.com/acme/widgets/pull/3")
                           [Sample.label "task"]] None)
           (JList [Sample.issue 3 (JStr "Three")
                     (JStr "https://github.com/acme/widgets/pull/3")
                     [Sample.label "task"]])
           _ _ _ _ _) _).
  - discriminate.
  - reflexivity.
  - reflexivity.
  - reflexivity.
  - reflexivity.
Defined.

(** C5 as stated fails for a malformed header: a Link header without
    a [;] is not taken as "no next page"; parsing it raises
    [ValueError], which ends the generator after the page's issues. *)
Lemma github_link_header_malformed_raises :
  Github.next_url (Some malformed_link) = Raise ValueError /\
  Github.get_issues broken_world 5 Sample.widgets
  = ([Sample.issue 1 (JStr "One") JNull []], Raised ValueError) /\
  Github.get_issues broken_world 5 Sample.widgets
  <> ([Sample.issue 1 (JStr "One") JNull []], Done).
Proof.
  split; [reflexivity|]. split; [reflexivity|]. discriminate.
Qed.

(** ** Text: separators inside appended texts *)

Lemma contains_append (c : ascii) (a b : string) :
  Text.contains c (a ++ b) = Text.contains c a || Text.contains c b.
Proof.
  induction a as [|x a IH]; simpl; [reflexivity|].
  now rewrite IH, orb_assoc.
Qed.

Lemma count_append (c : ascii) (a b : string) :
  Text.count c (a ++ b) = Text.count c a + Text.count c b.
Proof.
  induction a as [|x a IH]; simpl; [reflexivity|]. rewrite IH. lia.
Qed.

Lemma count_clean (c : ascii) (s : string) :
  Text.contains c s = false -> Text.count c s = 0.
Proof.
  rewrite contains_count. intros H. apply negb_false_iff in H.
  now apply Nat.eqb_eq.
Qed.

Lemma split_at (c : ascii) (a b : string) :
  Text.contains c a = false ->
  Text.split c (a ++ String c b) = a :: Text.split c b.
Proof.
  induction a as [|x a IH]; simpl.
  - now rewrite Ascii.eqb_refl.
  - destruct (Ascii.eqb x c); simpl; [discriminate|].
    intros H. now rewrite (IH H).
Qed.

Lemma before_at (c : ascii) (a b : string) :
  Text.contains c a = false -> Cut.before c (a ++ String c b) = a.
Proof.
  induction a as [|x a IH]; simpl.
  - now rewrite Ascii.eqb_refl.
  - destruct (Ascii.eqb x c); simpl; [discriminate|].
    intros H. now rewrite (IH H).
Qed.

Lemma after_at (c : ascii) (a b : string) :
  Text.contains c a = false -> Cut.after c (a ++ String c b) = b.
Proof.
  induction a as [|x a IH]; simpl.
  - now rewrite Ascii.eqb_refl.
  - destruct (Ascii.eqb x c); simpl; [discriminate | auto].
Qed.

(** The comma-separated entries of a joined header: every entry but
    the first keeps the space that follows the comma. *)
Lemma split_joined (texts : list string) :
  Forall (fun t => Text.contains "," t = false) texts ->
  forall pre t ts,
    texts = t :: ts ->
    Text.contains "," pre = false ->
    Text.split "," (pre ++ Text.join ", " texts)
    = (pre ++ t) :: map (String.append " ") ts.
Proof.
  induction 1 as [|t0 ts0 Ht0 Hts0 IH]; intros pre t ts Heq Hpre;
    [discriminate|].
  injection Heq as -> ->. destruct ts as [|t2 ts].
  - simpl. apply split_clean. rewrite contains_append, Hpre, Ht0. reflexivity.
  - change (Text.join ", " (t :: t2 :: ts))
      with (t ++ String "," (" " ++ Text.join ", " (t2 :: ts))).
    rewrite <- append_assoc.
    rewrite split_at by (rewrite contains_append, Hpre, Ht0; reflexivity).
    f_equal. apply (IH " " t2 ts eq_refl). reflexivity.
Qed.

(** ** The Link header: a rendered entry *)

Lemma entry_shape (u r : string) :
  LinkHeader.entry u r
  = ("<" ++ u ++ ">") ++ String ";" (" " ++ LinkHeader.rel r).
Proof.
  unfold LinkHeader.entry. simpl. f_equal. now rewrite append_assoc.
Qed.

Lemma rel_shape (r : string) :
  LinkHeader.rel r
  = ("rel=" ++ String Text.quote_char r) ++ Text.str1 Text.quote_char.
Proof.
  unfold LinkHeader.rel. now rewrite append_assoc.
Qed.

Lemma plain_spec (s : string) :
  LinkHeader.plain s = true ->
  Text.contains "," s = false /\ Text.contains ";" s = false.
Proof.
  unfold LinkHeader.plain. intros H. apply andb_true_iff in H.
  destruct H as [H1 H2]. now rewrite negb_true_iff in H1, H2.
Qed.

Lemma rel_clean (c : ascii) (r : string) :
  Text.contains c "rel=" = false ->
  Ascii.eqb Text.quote_char c = false ->
  Text.contains c r = false ->
  Text.contains c (LinkHeader.rel r) = false.
Proof.
  intros H1 H2 H3. rewrite rel_shape, !contains_append, H1.
  cbn [Text.contains Text.str1]. now rewrite H2, H3.
Qed.

Lemma target_clean (c : ascii) (u : string) :
  Ascii.eqb "<" c = false -> Ascii.eqb ">" c = false ->
  Text.contains c u = false ->
  Text.contains c ("<" ++ u ++ ">") = false.
Proof.
  intros H1 H2 Hu. change ("<" ++ u ++ ">") with (String "<" (u ++ ">")).
  cbn [Text.contains]. rewrite H1, contains_append, Hu.
  cbn [Text.contains]. now rewrite H2.
Qed.

Lemma entry_no_comma (u r : string) :
  LinkHeader.plain u = true -> LinkHeader.plain r = true ->
  Text.contains "," (LinkHeader.entry u r) = false.
Proof.
  intros Hu Hr. apply plain_spec in Hu, Hr.
  destruct Hu as [Hu _], Hr as [Hr _].
  rewrite entry_shape, contains_append, target_clean by easy.
  change (" " ++ LinkHeader.rel r) with (String " " (LinkHeader.rel r)).
  cbn [Text.contains orb]. now rewrite rel_clean.
Qed.

Lemma entry_two_parts (pre u r : string) :
  pre = EmptyString \/ pre = " " ->
  LinkHeader.plain u = true -> LinkHeader.plain r = true ->
  LinkHeader.two_parts (pre ++ LinkHeader.entry u r) = true.
Proof.
  intros Hpre Hu Hr. apply plain_spec in Hu, Hr.
  destruct Hu as [_ Hu], Hr as [_ Hr].
  unfold LinkHeader.two_parts. apply Nat.eqb_eq.
  rewrite count_append, entry_shape, count_append.
  rewrite (count_clean ";" ("<" ++ u ++ ">")) by now apply target_clean.
  change (" " ++ LinkHeader.rel r) with (String " " (LinkHeader.rel r)).
  cbn [Text.count]. rewrite (count_clean ";" (LinkHeader.rel r))
    by now apply rel_clean.
  destruct Hpre as [->| ->]; reflexivity.
Qed.

Lemma strip_entry (pre u r : string) :
  pre = EmptyString \/ pre = " " ->
  Text.strip (pre ++ LinkHeader.entry u r) = LinkHeader.entry u r.
Proof.
  intros Hpre. unfold Text.strip, Text.strip_with.
  assert (Hl : Text.lstrip Text.is_space (pre ++ LinkHeader.entry u r)
               = LinkHeader.entry u r).
  { destruct Hpre as [->| ->]; reflexivity. }
  rewrite Hl, entry_shape, rel_shape.
  change (String ";" (" " ++ ?a ++ ?b)) with (String ";" (" " ++ a) ++ b).
  rewrite <- append_assoc. now apply rstrip_keep.
Qed.

Lemma strip_target (u : string) :
  Text.strip ("<" ++ u ++ ">") = "<" ++ u ++ ">".
Proof.
  unfold Text.strip, Text.strip_with.
  change (Text.lstrip Text.is_space ("<" ++ u ++ ">")) with ("<" ++ u ++ ">").
  rewrite <- append_assoc. now apply rstrip_keep.
Qed.

Lemma strip_rel (r : string) :
  Text.strip (" " ++ LinkHeader.rel r) = LinkHeader.rel r.
Proof.
  unfold Text.strip, Text.strip_with.
  change (Text.lstrip Text.is_space (" " ++ LinkHeader.rel r))
    with (LinkHeader.rel r).
  rewrite rel_shape. now apply rstrip_keep.
Qed.

Lemma link_pair_entry (pre u r : string) :
  pre = EmptyString \/ pre = " " ->
  LinkHeader.plain u = true -> LinkHeader.plain r = true ->
  Github.link_pair (pre ++ LinkHeader.entry u r)
  = Ok (LinkHeader.rel r, "<" ++ u ++ ">").
Proof.
  intros Hpre Hu Hr.
  rewrite (link_pair_two_parts _ (entry_two_parts _ _ _ Hpre Hu Hr)).
  unfold LinkHeader.relation, LinkHeader.target.
  rewrite (strip_entry _ _ _ Hpre), entry_shape.
  apply plain_spec in Hu. destruct Hu as [_ Hu].
  rewrite before_at, after_at by now apply target_clean.
  now rewrite strip_target, strip_rel.
Qed.

Lemma mapM_map_in {A B C : Type} (f : B -> result C) (g : A -> B) (h : A -> C)
  (l : list A) :
  (forall x, In x l -> f (g x) = Ok (h x)) ->
  mapM f (map g l) = Ok (map h l).
Proof.
  induction l as [|x l IH]; simpl; intros H; [reflexivity|].
  rewrite (H x) by auto. simpl. rewrite IH by auto. reflexivity.
Qed.

Lemma well_formed_spec (en : string * string) :
  LinkHeader.well_formed en = true ->
  LinkHeader.plain (fst en) = true /\ LinkHeader.plain (snd en) = true /\
  LinkHeader.not_angle (LinkHeader.first_char (fst en)) = true /\
  LinkHeader.not_angle (LinkHeader.last_char (fst en)) = true.
Proof.
  unfold LinkHeader.well_formed. intros H.
  apply andb_true_iff in H. destruct H as [H H4].
  apply andb_true_iff in H. destruct H as [H H3].
  apply andb_true_iff in H. destruct H as [H1 H2]. auto.
Qed.

Lemma mapM_link_pair_rendered (entries : list (string * string)) :
  entries <> [] ->
  forallb LinkHeader.well_formed entries = true ->
  mapM Github.link_pair (Text.split "," (LinkHeader.render entries))
  = Ok (link_pairs entries).
Proof.
  intros Hne Hwf. rewrite forallb_forall in Hwf.
  destruct entries as [|en rest]; [contradiction|].
  unfold LinkHeader.render.
  change (Text.join ", " ?l) with (EmptyString ++ Text.join ", " l).
  rewrite (split_joined _) with (t := LinkHeader.entry (fst en) (snd en))
    (ts := map (fun en => LinkHeader.entry (fst en) (snd en)) rest);
    [| |reflexivity|reflexivity].
  - destruct (well_formed_spec en (Hwf en (or_introl eq_refl)))
      as (Hu & Hr & _).
    cbn [mapM]. rewrite (link_pair_entry EmptyString) by auto.
    cbn [bind]. rewrite map_map.
    rewrite (mapM_map_in _ _
               (fun en => (LinkHeader.rel (snd en), "<" ++ fst en ++ ">"))).
    + reflexivity.
    + intros x Hx.
      destruct (well_formed_spec x (Hwf x (or_intror Hx))) as (Hxu & Hxr & _).
      apply (link_pair_entry " "); auto.
  - apply Forall_forall. intros t Ht. apply in_map_iff in Ht.
    destruct Ht as (x & <- & Hx).
    destruct (well_formed_spec x (Hwf x Hx)) as (Hxu & Hxr & _).
    now apply entry_no_comma.
Qed.

Lemma snoc_inj (a b : string) (c : ascii) :
  a ++ Text.str1 c = b ++ Text.str1 c -> a = b.
Proof.
  revert b; induction a as [|x a IH]; intros [|y b]; simpl; intros H.
  - reflexivity.
  - injection H as _ H. destruct b; discriminate.
  - injection H as _ H. destruct a; discriminate.
  - injection H as -> H. f_equal. auto.
Qed.

Lemma rel_inj (r r' : string) :
  LinkHeader.rel r = LinkHeader.rel r' -> r = r'.
Proof.
  unfold LinkHeader.rel. intros H. apply append_inv_head in H.
  injection H as H. now apply snoc_inj in H.
Qed.

Lemma get_agree {V : Type} (k : string) (v : V) (d : list (string * V)) :
  (exists x, In x d /\ fst x = k) ->
  (forall x, In x d -> fst x = k -> snd x = v) ->
  Dict.get k d = Some v.
Proof.
  induction d as [|[k' v'] d IH]; simpl; intros (x & Hin & Hx) Hall.
  - destruct Hin.
  - destruct (String.eqb_spec k' k) as [->|Hne].
    + f_equal. exact (Hall (k, v') (or_introl eq_refl) eq_refl).
    + apply IH; [|auto]. destruct Hin as [<-|Hin]; [contradiction|eauto].
Qed.

Lemma get_next_pair (entries : list (string * string)) (url : string) :
  LinkHeader.points_to entries url ->
  Dict.get (LinkHeader.rel "next") (rev (link_pairs entries))
  = Some ("<" ++ url ++ ">").
Proof.
  intros [Hin Huniq]. apply get_agree.
  - exists (LinkHeader.rel "next", "<" ++ url ++ ">"). split; [|reflexivity].
    apply -> in_rev. unfold link_pairs. apply in_map_iff.
    exists (url, "next"). auto.
  - intros x Hx Hk. apply in_rev, in_map_iff in Hx.
    destruct Hx as ([u r] & <- & Hen). simpl in *.
    apply rel_inj in Hk. subst r. now rewrite (Huniq u Hen).
Qed.

Lemma get_no_next_pair (entries : list (string * string)) :
  LinkHeader.no_next entries ->
  Dict.get (LinkHeader.rel "next") (rev (link_pairs entries)) = None.
Proof.
  intros Hno. apply get_no_key. intros x Hx Hk.
  apply in_rev, in_map_iff in Hx. destruct Hx as ([u r] & <- & Hen).
  simpl in Hk. apply rel_inj in Hk. subst r. exact (Hno u Hen).
Qed.

Lemma strip_angles (u : string) :
  LinkHeader.not_angle (LinkHeader.first_char u) = true ->
  LinkHeader.not_angle (LinkHeader.last_char u) = true ->
  Text.strip_chars "<>" ("<" ++ u ++ ">") = u.
Proof.
  intros Hfirst Hlast. unfold Text.strip_chars, Text.strip_with.
  change (Text.lstrip ?p ("<" ++ u ++ ">")) with (Text.lstrip p (u ++ ">")).
  destruct u as [|a u]; [reflexivity|].
  simpl in Hfirst. apply negb_true_iff in Hfirst.
  unfold LinkHeader.is_angle in Hfirst.
  change (Text.lstrip ?p (String a u ++ ">"))
    with (if p a then Text.lstrip p (u ++ ">") else String a u ++ ">").
  cbv beta. rewrite Hfirst.
  change (String a u ++ ">") with (String a u ++ Text.str1 ">").
  rewrite rstrip_drop by reflexivity.
  apply rstrip_last. intros c Hc. rewrite Hc in Hlast.
  simpl in Hlast. now apply negb_true_iff in Hlast.
Qed.

Lemma next_url_points_to (entries : list (string * string)) (url : string) :
  entries <> [] ->
  forallb LinkHeader.well_formed entries = true ->
  LinkHeader.points_to entries url ->
  Github.next_url (Some (LinkHeader.render entries)) = Ok url.
Proof.
  intros Hne Hwf Hp. unfold Github.next_url.
  rewrite (mapM_link_pair_rendered _ Hne Hwf). cbn [bind].
  rewrite get_of_pairs, rel_next_spec, (get_next_pair _ _ Hp).
  rewrite forallb_forall in Hwf.
  destruct (well_formed_spec _ (Hwf _ (proj1 Hp))) as (_ & _ & Hf & Hl).
  f_equal. now apply strip_angles.
Qed.

Lemma next_url_rendered_no_next (entries : list (string * string)) :
  entries <> [] ->
  forallb LinkHeader.well_formed entries = true ->
  LinkHeader.no_next entries ->
  Github.next_url (Some (LinkHeader.render entries)) = Ok EmptyString.
Proof.
  intros Hne Hwf Hno. unfold Github.next_url.
  rewrite (mapM_link_pair_rendered _ Hne Hwf). cbn [bind].
  now rewrite get_of_pairs, rel_next_spec, (get_no_next_pair _ Hno).
Qed.

(** ** Pagination *)

Lemma fetch_pages_linked (e : env) (rest : list page_spec) :
  forall p fuel,
    linked e p rest ->
    List.length rest < fuel ->
    Github.fetch_pages e fuel (page_url p)
    = (List.concat (map page_issues (p :: rest)), Done).
Proof.
  induction rest as [|q rest IH]; intros p fuel Hl Hfuel;
    (destruct fuel as [|fuel]; [simpl in Hfuel; lia|]);
    destruct Hl as ((Hurl & Hopen & Hwf) & Hnext);
    rewrite (fetch_pages_step e fuel _ _ (JList (page_issues p))
               (page_issues p) Hurl Hopen eq_refl eq_refl);
    unfold page_response; cbn [link_header].
  - assert (Hn : Github.next_url (option_map LinkHeader.render (page_links p))
                 = Ok EmptyString).
    { destruct (page_links p) as [entries|]; [|reflexivity].
      destruct Hwf as [Hne Hwf]. now apply next_url_rendered_no_next. }
    rewrite Hn, fetch_pages_empty_url. reflexivity.
  - destruct Hnext as [Hp Hq].
    destruct (page_links p) as [entries|]; [|contradiction].
    destruct Hwf as [Hne Hwf]. cbn [option_map].
    rewrite (next_url_points_to _ _ Hne Hwf Hp).
    rewrite (IH q fuel Hq) by (simpl in Hfuel; lia). reflexivity.
Qed.

(** C4, as the code has it: when the first URL is answered by a page
    whose Link header is a list of [<url>; rel="name"] entries joined by
    a comma and a space, with no comma or semicolon inside a URL or a
    name and no angle bracket at either end of a URL, and its
    [rel="next"] entry points to the next page, and so on up to a last
    page with no Link header or with such a header without a
    [rel="next"] entry, [get_issues] yields the issues of all pages,
    each once and in page order, and ends; one unit of fuel per page is
    enough. *)
Theorem github_pagination_yields_all_pages (e : env) (self : Github.t)
  (p : page_spec) (rest : list page_spec) (fuel : nat) :
  Github.first_url e self = Ok (page_url p) ->
  linked e p rest ->
  List.length rest < fuel ->
  Github.get_issues e fuel self
  = (List.concat (map page_issues (p :: rest)), Done).
Proof.
  intros Hfirst Hl Hfuel. unfold Github.get_issues. rewrite Hfirst.
  now apply fetch_pages_linked.
Qed.

Lemma github_pagination_yields_all_pages_witness :
  Github.get_issues Sample.world 2 Sample.widgets
  = (List.concat (map page_issues [sample_first_page; sample_second_page]), Done).
Proof.
  apply (github_pagination_yields_all_pages Sample.world Sample.widgets
           sample_first_page [sample_second_page] 2).
  - reflexivity.
  - simpl. repeat split; try reflexivity; try discriminate.
    + left. reflexivity.
    + intros url' [H|[]]. now injection H.
  - simpl. lia.
Defined.

(** C4 as stated fails: a Link header can carry a [rel="next"] entry
    that points to the next response and still not be followed.  When
    the URL of the entry holds a comma, splitting the header at commas
    cuts the entry in two, the first part has no [;], and building the
    dictionary raises [ValueError] after the first page's issues: the
    second page is never fetched. *)
Lemma github_pagination_comma_in_next_url :
  Github.first_url comma_world Sample.widgets
  = Ok (page_url comma_first_page) /\
  urlopen comma_world (page_url comma_first_page)
  = Ok (page_response comma_first_page) /\
  link_header (page_response comma_first_page)
  = Some (LinkHeader.entry (page_url comma_second_page) "next") /\
  urlopen comma_world (page_url comma_second_page)
  = Ok (page_response comma_second_page) /\
  link_header (page_response comma_second_page) = None /\
  Github.next_url (link_header (page_response comma_first_page))
  = Raise ValueError /\
  Github.get_issues comma_world 5 Sample.widgets
  = (page_issues comma_first_page, Raised ValueError) /\
  Github.get_issues comma_world 5 Sample.widgets
  <> ((page_issues comma_first_page ++ page_issues comma_second_page)%list,
      Done).
Proof.
  repeat (split; [reflexivity|]). discriminate.
Qed.

(** ** The shape of a record *)

Lemma github_normalize_shape (self : Github.t) (issue : json) (rec : dict) :
  Github.normalize self issue = Ok rec ->
  Dict.keys rec = fieldnames /\
  Dict.get "source" rec = Some (JStr "github") /\
  is_flag (Dict.get "patch" rec) /\ is_flag (Dict.get "feature" rec) /\
  (is_text_or_integer (Github.repo self) = true ->
   copies_text_or_integers (SGithub self) issue ->
   Forall (fun kv => is_text_or_integer (snd kv) = true) rec).
Proof.
  intros H. unfold Github.normalize in H. invert_binds H. injection H as <-.
  split; [reflexivity|]. split; [reflexivity|]. split; [|split].
  - unfold is_flag. cbn. destruct (Py.truthy v6); auto.
  - unfold is_flag. cbn.
    destruct (is_enhancement_task_flags _ _ E9) as [[-> _]|[-> _]]; auto.
  - intros Hrepo Hraw. unfold copies_text_or_integers, copied_fields in Hraw.
    inversion_clear Hraw as [|? ? H1 Hraw1].
    inversion_clear Hraw1 as [|? ? H2 Hraw2].
    inversion_clear Hraw2 as [|? ? H3 Hraw3].
    inversion_clear Hraw3 as [|? ? H4 Hraw4].
    inversion_clear Hraw4 as [|? ? H5 _].
    rewrite E1 in H3. cbn [bind] in H3.
    destruct (Py.truthy v1).
    + rewrite E1 in E2. cbn [bind] in E2.
      repeat constructor; cbn [snd]; auto.
    + repeat constructor; cbn [snd]; auto.
Qed.

Lemma bugzilla_normalize_shape (e : env) (self : Bugzilla.t) (issue : json)
  (rec : dict) :
  Bugzilla.normalize e issue = Ok rec ->
  Dict.keys rec = fieldnames /\
  Dict.get "source" rec = Some (JStr "bugzilla") /\
  is_flag (Dict.get "patch" rec) /\ is_flag (Dict.get "feature" rec) /\
  (copies_text_or_integers (SBugzilla self) issue ->
   Forall (fun kv => is_text_or_integer (snd kv) = true) rec).
Proof.
  intros H. unfold Bugzilla.normalize in H. invert_binds H. injection H as <-.
  split; [reflexivity|]. split; [reflexivity|]. split; [|split].
  - unfold is_flag. cbn. destruct v8; auto.
  - unfold is_flag. cbn. destruct v10; auto.
  - intros Hraw. unfold copies_text_or_integers, copied_fields in Hraw.
    inversion_clear Hraw as [|? ? H1 Hraw1].
    inversion_clear Hraw1 as [|? ? H2 Hraw2].
    inversion_clear Hraw2 as [|? ? H3 Hraw3].
    inversion_clear Hraw3 as [|? ? H4 Hraw4].
    inversion_clear Hraw4 as [|? ? H5 _].
    rewrite E1 in H2. cbn [bind] in H2.
    repeat constructor; cbn [snd]; auto.
Qed.

(** A github source that yields an issue was built with text for
    [user] and [repo]: the path of the first URL is joined from them. *)
Lemma github_yields_repo_text (e : env) (fuel : nat) (self : Github.t)
  (raw : json) :
  In raw (fst (Github.get_issues e fuel self)) ->
  is_text_or_integer (Github.repo self) = true.
Proof.
  unfold Github.get_issues, Github.first_url, Py.join. cbn [mapM bind].
  destruct (Github.user self); try (intros []).
  destruct (Github.repo self); try (intros []). reflexivity.
Qed.

(** C1, as the code has it: every record either source yields has
    exactly the ten keys, in the order of the columns; its [source] is
    the source's name, its [patch] and [feature] are ["y"] or ["n"];
    it is the normalization of a raw issue of the listing, and all its
    values are texts or integers whenever the values copied into it
    from that raw issue are. *)
Theorem records_have_the_ten_fields (e : env) (fuel : nat) (s : source)
  (recs : list dict) (o : outcome) (rec : dict) :
  get_all e fuel s = (recs, o) ->
  In rec recs ->
  Dict.keys rec = fieldnames /\
  NoDup (Dict.keys rec) /\
  (forall key, In key fieldnames <-> exists v, Dict.get key rec = Some v) /\
  Dict.get "source" rec
  = Some (JStr (match s with SGithub _ => "github" | SBugzilla _ => "bugzilla" end)) /\
  is_flag (Dict.get "patch" rec) /\ is_flag (Dict.get "feature" rec) /\
  exists raw,
    In raw (fst (get_issues e fuel s)) /\
    normalize e s raw = Ok rec /\
    (copies_text_or_integers s raw ->
     Forall (fun kv => is_text_or_integer (snd kv) = true) rec).
Proof.
  intros Hall Hin.
  assert (Hkeys : Dict.keys rec = fieldnames ->
                  NoDup (Dict.keys rec) /\
                  (forall key, In key fieldnames <->
                               exists v, Dict.get key rec = Some v)).
  { intros Hk. split.
    - rewrite Hk. unfold fieldnames.
      repeat (constructor; [simpl; intuition discriminate|]). constructor.
    - intros key. rewrite <- Hk. split.
      + intros Hkey. destruct (Dict.get key rec) as [v|] eqn:Eg; [eauto|].
        exfalso. exact (get_None_not_In _ _ Eg Hkey).
      + intros (v & Hv). apply get_Some_In in Hv.
        change key with (fst (key, v)). now apply in_map. }
  destruct s as [g|b]; simpl in Hall.
  - unfold Github.get_all in Hall.
    destruct (Github.get_issues e fuel g) as [issues o1] eqn:Ei.
    destruct (for_each_In _ _ _ _ _ _ Hall Hin) as (raw & Hraw & Hn).
    destruct (github_normalize_shape _ _ _ Hn) as (Hk & Hs & Hp & Hf & Hv).
    destruct (Hkeys Hk) as [Hnd Hiff].
    repeat (split; [assumption|]).
    exists raw. simpl. rewrite Ei. split; [exact Hraw|].
    split; [exact Hn|].
    apply Hv. apply (github_yields_repo_text e fuel g raw).
    now rewrite Ei.
  - unfold Bugzilla.get_all in Hall.
    destruct (Bugzilla.get_issues e b) as [issues o1] eqn:Ei.
    destruct (for_each_In _ _ _ _ _ _ Hall Hin) as (raw & Hraw & Hn).
    destruct (bugzilla_normalize_shape _ b _ _ Hn) as (Hk & Hs & Hp & Hf & Hv).
    destruct (Hkeys Hk) as [Hnd Hiff].
    repeat (split; [assumption|]).
    exists raw. simpl. rewrite Ei. split; [exact Hraw|]. split; assumption.
Qed.

Lemma records_have_the_ten_fields_witness :
  Dict.keys
    [("source", JStr "bugzilla"); ("id", JNum 7);
     ("url", JStr "https://bugzilla.mozilla.org/show_bug.cgi?id=7");
     ("assigned", JStr "Bob"); ("status", JStr "closed");
     ("title", JStr "Toolbar flickers"); ("product", JStr "Firefox");
     ("module", JStr "Toolbars"); ("patch", JStr "n");
     ("feature", JStr "y")] = fieldnames.
Proof.
  refine (proj1 (records_have_the_ten_fields Sample.world 0
                   (SBugzilla Sample.new_bugs) _ Done _ _ _)).
  - reflexivity.
  - left. reflexivity.
Defined.

(** C1 as stated fails: the values are copied as the server sends them,
    so an issue with a null title yields a record whose [title] is
    neither a text nor an integer. *)
Lemma record_value_neither_text_nor_integer :
  exists rec,
    Github.get_all null_title_world 1 Sample.widgets = ([rec], Done) /\
    Dict.get "title" rec = Some JNull /\
    ~ Forall (fun kv => is_text_or_integer (snd kv) = true) rec.
Proof.
  eexists. split; [reflexivity|]. split; [reflexivity|].
  intros H. rewrite Forall_forall in H.
  specialize (H ("title", JNull)). simpl in H.
  assert (Hf : false = true) by (apply H; intuition). discriminate.
Qed.

(** ** Writing a record *)

Lemma keys_set {V : Type} (k k' : string) (v : V) (d : list (string * V)) :
  In k (Dict.keys (Dict.set k' v d)) -> k = k' \/ In k (Dict.keys d).
Proof.
  unfold Dict.keys. induction d as [|[k1 v1] d IH]; simpl.
  - intros [H|[]]; auto.
  - destruct (String.eqb_spec k1 k') as [->|Hne]; simpl.
    + intros [H|H]; auto.
    + intros [H|H]; auto. destruct (IH H); auto.
Qed.






Lemma writerow_header (e : env) :
  DictWriter.writerow e fieldnames
    (Dict.of_pairs (combine fieldnames (map JStr fieldnames)))
  = Ok header_text.
Proof. reflexivity. Qed.





(** ** The whole run *)





(** ** Definitions outside the grammar *)

(** The example of the specification is a valid definition. *)
Example valid_example :
  Grammar.valid "github:acme:widgets:state=open:state=closed" = true.
Proof. reflexivity. Qed.

(** A filter named like a constructor parameter is bound to that
    parameter, as a list, when the positional segment for it is
    missing: the source is built, with no such filter. *)
Example keyword_binds_parameter :
  Grammar.valid "github:acme:repo=widgets" = false /\
  parse_source "github:acme:repo=widgets"
  = Ok (SGithub {| Github.user := JStr "acme";
                   Github.repo := JList [JStr "widgets"];
                   Github.filters := [] |}).
Proof. split; reflexivity. Qed.

(** The same filter after both positional segments is an argument
    error, and so are a missing or a surplus positional segment and an
    unknown type. *)
Example argument_errors :
  parse_source "github:acme:widgets:user=other" = Raise TypeError /\
  parse_source "github:acme" = Raise TypeError /\
  parse_source "bugzilla:extra" = Raise TypeError /\
  parse_source "bugzilla:self=me" = Raise TypeError /\
  parse_source "jira:status=NEW" = Raise KeyError.
Proof. repeat split; reflexivity. Qed.

(** A github source built with a list for [repo] cannot fetch: joining
    the path raises before the first request. *)
Example list_repo_cannot_fetch :
  Github.get_issues Sample.world 5
    {| Github.user := JStr "acme";
       Github.repo := JList [JStr "widgets"];
       Github.filters := [] |}
  = ([], Raised TypeError).
Proof. reflexivity. Qed.

(** The multi-value filter scenario: the key is sent once per value, in
    the order given. *)
Example multi_value_query :
  option_map (Bugzilla.request_url Sample.world)
    (match parse_source "bugzilla:status=NEW:status=ASSIGNED" with
     | Ok (SBugzilla b) => Some b
     | _ => None
     end)
  = Some "https://api-dev.bugzilla.mozilla.org/latest/bug?status=NEW&status=ASSIGNED".
Proof. reflexivity. Qed.

(** ** Runs that complete *)

Lemma for_each_done {A B : Type} (f : A -> result B) (l : list A) (o : outcome)
  (r : list B) :
  for_each f l o = (r, Done) -> o = Done /\ mapM f l = Ok r.
Proof.
  revert r; induction l as [|x l IH]; simpl; intros r H.
  - injection H as <- ->. auto.
  - destruct (f x) as [y|x0]; [|discriminate].
    destruct (for_each f l o) as [ys o1]. injection H as <- ->.
    destruct (IH ys eq_refl) as [-> Hm]. rewrite Hm. auto.
Qed.

(** The hypotheses of [main_writes_github_then_bugzilla] hold of every
    run on a github and a bugzilla definition that ends normally. *)
Lemma main_done_inv (e : env) (fuel : nat) (dg db : string)
  (g : Github.t) (b : Bugzilla.t) (out : list string) :
  parse_source dg = Ok (SGithub g) ->
  parse_source db = Ok (SBugzilla b) ->
  main e fuel [dg; db] = (out, Done) ->
  exists issues_g issues_b recs_g recs_b,
    Github.get_issues e fuel g = (issues_g, Done) /\
    Bugzilla.get_issues e b = (issues_b, Done) /\
    mapM (Github.normalize g) issues_g = Ok recs_g /\
    mapM (Bugzilla.normalize e) issues_b = Ok recs_b.
Proof.
  intros Hg Hb. unfold main. cbn [mapM]. rewrite Hg, Hb. cbn [bind].
  rewrite writerow_header. cbn [map get_all chain].
  destruct (Github.get_all e fuel g) as [rg og] eqn:Eg.
  destruct (Bugzilla.get_all e b) as [rb ob] eqn:Eb.
  intros H.
  assert (Hdone : og = Done /\ ob = Done).
  { destruct og, ob; cbn [chain] in H;
      match type of H with
      | context [for_each ?f ?l ?o] =>
          destruct (for_each f l o) as [rows o'] eqn:Ef
      end;
      injection H as _ ->; apply for_each_done in Ef;
      destruct Ef as [Ef _]; try discriminate; auto. }
  destruct Hdone as [-> ->].
  unfold Github.get_all in Eg. unfold Bugzilla.get_all in Eb.
  destruct (Github.get_issues e fuel g) as [ig o1].
  destruct (Bugzilla.get_issues e b) as [ib o2].
  apply for_each_done in Eg, Eb.
  destruct Eg as [-> Hmg], Eb as [-> Hmb].
  exists ig, ib, rg, rb. auto.
Qed.

(** * Further properties of the code *)

(** ** Bugzilla: status and feature *)

(** The [status] of a normalized bug is ["closed"] exactly when the raw
    status is one of the texts RESOLVED, VERIFIED and CLOSED, and
    ["open"] for every other raw status. *)
Theorem bugzilla_status_closed_iff (e : env) (issue : json) (rec : dict) :
  Bugzilla.normalize e issue = Ok rec ->
  exists st,
    Py.getitem issue "status" = Ok st /\
    (Dict.get "status" rec = Some (JStr "closed") <->
     st = JStr "RESOLVED" \/ st = JStr "VERIFIED" \/ st = JStr "CLOSED") /\
    (Dict.get "status" rec = Some (JStr "open") <->
     ~ (st = JStr "RESOLVED" \/ st = JStr "VERIFIED" \/ st = JStr "CLOSED")).
Proof.
  intros H. unfold Bugzilla.normalize in H. invert_binds H. injection H as <-.
  exists v3. split; [exact E3|].
  change (Dict.get "status" _)
    with (Some (JStr (if v4 then "closed" else "open"))).
  assert (Hv4 : v4 = true <->
                v3 = JStr "RESOLVED" \/ v3 = JStr "VERIFIED" \/ v3 = JStr "CLOSED").
  { unfold Py.in_str_set, Bugzilla.CLOSED_STATES in E4.
    assert (Hex : Ok (existsb (fun s => Py.eq_str v3 s)
                        ["RESOLVED"; "VERIFIED"; "CLOSED"]) = Ok v4)
      by (destruct v3; try discriminate; exact E4).
    injection Hex as <-. cbn [existsb].
    rewrite !orb_true_iff, !eq_str_true. intuition discriminate. }
  destruct v4.
  - assert (Hc : v3 = JStr "RESOLVED" \/ v3 = JStr "VERIFIED" \/
                 v3 = JStr "CLOSED") by now apply Hv4.
    split; split; intros; try discriminate; tauto.
  - assert (Hc : ~ (v3 = JStr "RESOLVED" \/ v3 = JStr "VERIFIED" \/
                    v3 = JStr "CLOSED")).
    { intros Hc. apply Hv4 in Hc. discriminate. }
    split; split; intros; try discriminate; tauto.
Qed.

Lemma bugzilla_status_closed_iff_witness :
  exists st,
    Py.getitem (Sample.bug 7 []) "status" = Ok st /\
    (Dict.get "status" (hd [] sample_bugzilla_records)
     = Some (JStr "closed") <->
     st = JStr "RESOLVED" \/ st = JStr "VERIFIED" \/ st = JStr "CLOSED") /\
    (Dict.get "status" (hd [] sample_bugzilla_records)
     = Some (JStr "open") <->
     ~ (st = JStr "RESOLVED" \/ st = JStr "VERIFIED" \/ st = JStr "CLOSED")).
Proof.
  apply (bugzilla_status_closed_iff Sample.world (Sample.bug 7 [])).
  reflexivity.
Defined.

Lemma existsb_eq_str (s : string) (l : list json) :
  existsb (fun x => Py.eq_str x s) l = true <-> In (JStr s) l.
Proof.
  rewrite existsb_exists. split.
  - intros (x & Hin & Hx). apply eq_str_true in Hx. now subst x.
  - intros Hin. exists (JStr s). split; [exact Hin | now apply eq_str_true].
Qed.

(** The [feature] of a normalized bug is ["y"] exactly when the text
    [feature] is one of its keywords; when the keywords come as one text
    instead of a list, a keyword that merely contains [feature] counts
    too. *)
Theorem bugzilla_feature_iff_keyword (e : env) (issue : json) (rec : dict) :
  Bugzilla.normalize e issue = Ok rec ->
  (forall keywords,
     Py.getitem issue "keywords" = Ok (JList keywords) ->
     (Dict.get "feature" rec = Some (JStr "y") <-> In (JStr "feature") keywords) /\
     (Dict.get "feature" rec = Some (JStr "n") <-> ~ In (JStr "feature") keywords)) /\
  (forall text,
     Py.getitem issue "keywords" = Ok (JStr text) ->
     Dict.get "feature" rec
     = Some (JStr (if Text.is_substring "feature" text then "y" else "n"))).
Proof.
  intros H. unfold Bugzilla.normalize in H. invert_binds H. injection H as <-.
  change (Dict.get "feature" _)
    with (Some (JStr (if v10 then "y" else "n"))).
  split.
  - intros keywords Hk. rewrite Hk in E9. injection E9 as <-.
    simpl in E10. injection E10 as <-.
    pose proof (existsb_eq_str "feature" keywords) as Hex.
    destruct (existsb _ keywords).
    + assert (Hin : In (JStr "feature") keywords) by now apply Hex.
      split; split; intros; try discriminate; tauto.
    + assert (Hno : ~ In (JStr "feature") keywords).
      { intros Hin. apply Hex in Hin. discriminate. }
      split; split; intros; try discriminate; tauto.
  - intros text Hk. rewrite Hk in E9. injection E9 as <-.
    simpl in E10. now injection E10 as <-.
Qed.

Lemma bugzilla_feature_iff_keyword_witness :
  (Dict.get "feature" (hd [] sample_bugzilla_records) = Some (JStr "y") <->
   In (JStr "feature") [JStr "feature"]) /\
  (Dict.get "feature" (hd [] sample_bugzilla_records) = Some (JStr "n") <->
   ~ In (JStr "feature") [JStr "feature"]).
Proof.
  apply (proj1 (bugzilla_feature_iff_keyword Sample.world (Sample.bug 7 [])
                  (hd [] sample_bugzilla_records) eq_refl)).
  reflexivity.
Defined.

(** ** Github: the assignee and the first request *)

(** The [assigned] field of a normalized github issue is the login of
    the assignee when the issue has one, and the text [nobody] when the
    assignee is null (or otherwise false). *)
Theorem github_assigned_login_or_nobody (self : Github.t) (issue : json)
  (rec : dict) :
  Github.normalize self issue = Ok rec ->
  exists assignee,
    Py.getitem issue "assignee" = Ok assignee /\
    (Py.truthy assignee = false ->
     Dict.get "assigned" rec = Some (JStr "nobody")) /\
    (Py.truthy assignee = true ->
     exists login, Py.getitem assignee "login" = Ok login /\
                   Dict.get "assigned" rec = Some login).
Proof.
  intros H. unfold Github.normalize in H. invert_binds H. injection H as <-.
  exists v1. split; [exact E1|].
  change (Dict.get "assigned" _) with (Some v2).
  split; intros Ht; rewrite Ht in E2.
  - now injection E2 as <-.
  - rewrite E1 in E2. cbn [bind] in E2. eauto.
Qed.

Lemma github_assigned_login_or_nobody_witness :
  exists assignee,
    Py.getitem (Sample.issue 1 (JStr "One") JNull []) "assignee"
    = Ok assignee /\
    (Py.truthy assignee = false ->
     Dict.get "assigned" (hd [] sample_github_records)
     = Some (JStr "nobody")) /\
    (Py.truthy assignee = true ->
     exists login, Py.getitem assignee "login" = Ok login /\
                   Dict.get "assigned" (hd [] sample_github_records)
                   = Some login).
Proof.
  apply (github_assigned_login_or_nobody Sample.widgets
           (Sample.issue 1 (JStr "One") JNull [])).
  reflexivity.
Defined.



(** ** Pagination: fuel and cycles *)

Lemma fetch_pages_more_fuel (e : env) (fuel : nat) :
  forall url items o fuel',
    fuel <= fuel' ->
    Github.fetch_pages e fuel url = (items, o) ->
    (exists more, fst (Github.fetch_pages e fuel' url) = (items ++ more)%list) /\
    (o <> OutOfFuel -> Github.fetch_pages e fuel' url = (items, o)).
Proof.
  induction fuel as [|fuel IH]; intros url items o fuel' Hle H.
  - simpl in H. destruct (String.eqb url EmptyString) eqn:Eu.
    + apply String.eqb_eq in Eu. subst url. rewrite fetch_pages_empty_url.
      injection H as <- <-. split; [exists []; reflexivity | reflexivity].
    + injection H as <- <-. split; [|congruence].
      exists (fst (Github.fetch_pages e fuel' url)). reflexivity.
  - destruct fuel' as [|fuel']; [lia|]. simpl in H |- *.
    destruct (String.eqb url EmptyString).
    { injection H as <- <-. split; [exists []; reflexivity | reflexivity]. }
    destruct (urlopen e url) as [resp|x].
    2:{ injection H as <- <-. split; [exists []; reflexivity | reflexivity]. }
    destruct (body resp) as [data|].
    2:{ injection H as <- <-. split; [exists []; reflexivity | reflexivity]. }
    destruct (Py.iter data) as [issues|x].
    2:{ injection H as <- <-. split; [exists []; reflexivity | reflexivity]. }
    destruct (Github.next_url (link_header resp)) as [url'|x].
    2:{ injection H as <- <-. split; [|reflexivity].
        exists []. now rewrite app_nil_r. }
    destruct (Github.fetch_pages e fuel url') as [more o1] eqn:Ef.
    injection H as <- <-.
    destruct (IH url' more o1 fuel' (proj2 (Nat.succ_le_mono _ _) Hle) Ef)
      as [(extra & Hextra) Hsame].
    destruct (Github.fetch_pages e fuel' url') as [more' o2] eqn:Ef'.
    simpl in Hextra. subst more'. split.
    + exists extra. simpl. now rewrite app_assoc.
    + intros Ho. specialize (Hsame Ho). injection Hsame as Hm ->.
      now rewrite Hm.
Qed.

(** About the model rather than the code: fuel only bounds the number
    of pages fetched.  What is yielded with less fuel is a prefix of
    what is yielded with more, and a listing that ended (normally or by
    raising) ends the same way with any larger fuel. *)
Theorem github_get_issues_fuel_monotone (e : env) (self : Github.t)
  (fuel fuel' : nat) (items : list json) (o : outcome) :
  fuel <= fuel' ->
  Github.get_issues e fuel self = (items, o) ->
  (exists more,
     fst (Github.get_issues e fuel' self) = (items ++ more)%list) /\
  (o <> OutOfFuel -> Github.get_issues e fuel' self = (items, o)).
Proof.
  unfold Github.get_issues. intros Hle H.
  destruct (Github.first_url e self) as [url|x].
  - now apply (fetch_pages_more_fuel e fuel).
  - injection H as <- <-. split; [exists []; reflexivity | reflexivity].
Qed.

Lemma github_get_issues_fuel_monotone_witness :
  (exists more,
     fst (Github.get_issues Sample.world 7 Sample.widgets)
     = (sample_github_issues ++ more)%list) /\
  (Done <> OutOfFuel ->
   Github.get_issues Sample.world 7 Sample.widgets
   = (sample_github_issues, Done)).
Proof.
  apply (github_get_issues_fuel_monotone Sample.world Sample.widgets 2 7).
  - lia.
  - reflexivity.
Defined.

(** The loop follows [rel="next"] with no memory of the pages it has
    seen: a page whose header names the page itself as next is fetched
    again and again, and its issues are yielded once per fetch, for as
    long as there is fuel. *)
Theorem github_self_link_never_ends (e : env) (p : page_spec)
  (entries : list (string * string)) :
  serves e p ->
  page_links p = Some entries ->
  LinkHeader.points_to entries (page_url p) ->
  forall fuel,
    Github.fetch_pages e fuel (page_url p)
    = (List.concat (repeat (page_issues p) fuel), OutOfFuel).
Proof.
  intros (Hurl & Hopen & Hwf) Hlinks Hp fuel.
  rewrite Hlinks in Hwf. destruct Hwf as [Hne Hwf].
  induction fuel as [|fuel IH].
  - simpl. apply String.eqb_neq in Hurl. now rewrite Hurl.
  - rewrite (fetch_pages_step e fuel _ _ (JList (page_issues p))
               (page_issues p) Hurl Hopen eq_refl eq_refl).
    unfold page_response. cbn [link_header]. rewrite Hlinks.
    cbn [option_map]. rewrite (next_url_points_to _ _ Hne Hwf Hp), IH.
    reflexivity.
Qed.

Lemma github_self_link_never_ends_witness :
  Github.fetch_pages looping_world 3 (page_url looping_page)
  = (List.concat (repeat (page_issues looping_page) 3), OutOfFuel).
Proof.
  refine (github_self_link_never_ends looping_world looping_page
            [(Sample.first_page_url, "next")] _ _ _ 3).
  - repeat split; try reflexivity; discriminate.
  - reflexivity.
  - split; [left; reflexivity|]. intros url' [H|[]]. now injection H.
Defined.

(** ** The Link header: which entry is followed *)

Lemma get_last_next (entries : list (string * string)) :
  Dict.get (LinkHeader.rel "next") (rev (link_pairs entries))
  = option_map (fun url => "<" ++ url ++ ">") (last_next entries).
Proof.
  induction entries as [|[u r] rest IH]; [reflexivity|].
  cbn [link_pairs map rev last_next fst snd].
  fold (link_pairs rest). rewrite get_app, IH.
  destruct (last_next rest) as [url|]; [reflexivity|].
  cbn [option_map Dict.get].
  destruct (String.eqb_spec r "next") as [->|Hne].
  - now rewrite String.eqb_refl.
  - destruct (String.eqb_spec (LinkHeader.rel r) (LinkHeader.rel "next"))
      as [Heq|_]; [|reflexivity].
    apply rel_inj in Heq. contradiction.
Qed.

Lemma last_next_In (entries : list (string * string)) (url : string) :
  last_next entries = Some url -> In (url, "next") entries.
Proof.
  induction entries as [|[u r] rest IH]; simpl; [discriminate|].
  destruct (last_next rest) as [url'|].
  - intros H. injection H as ->. auto.
  - destruct (String.eqb_spec r "next") as [->|_]; [|discriminate].
    intros H. injection H as ->. auto.
Qed.

(** Of a header with well-formed entries the loop follows the last
    entry named [next]; with no such entry it stops. *)
Theorem github_next_url_last_next_wins (entries : list (string * string)) :
  entries <> [] ->
  forallb LinkHeader.well_formed entries = true ->
  Github.next_url (Some (LinkHeader.render entries))
  = Ok (match last_next entries with
        | Some url => url
        | None => EmptyString
        end).
Proof.
  intros Hne Hwf. unfold Github.next_url.
  rewrite (mapM_link_pair_rendered _ Hne Hwf). cbn [bind].
  rewrite get_of_pairs, rel_next_spec, get_last_next.
  destruct (last_next entries) as [url|] eqn:El; [|reflexivity].
  cbn [option_map]. f_equal. apply last_next_In in El.
  rewrite forallb_forall in Hwf.
  destruct (well_formed_spec _ (Hwf _ El)) as (_ & _ & Hf & Hl).
  now apply strip_angles.
Qed.

Lemma github_next_url_last_next_wins_witness :
  Github.next_url (Some (LinkHeader.render two_next_entries))
  = Ok (match last_next two_next_entries with
        | Some url => url
        | None => EmptyString
        end).
Proof.
  apply (github_next_url_last_next_wins two_next_entries).
  - discriminate.
  - reflexivity.
Defined.

(** ** Github: how far the labels are read *)

(** [is_enhancement] stops at the first label named [task]: whatever
    follows it, malformed labels included, is never read, and the result
    is ["y"].  A label without a readable name that comes before any
    [task] label makes the normalization raise. *)
Theorem github_feature_stops_at_first_task (labels rest : list json) :
  Forall (fun l => exists name, Py.getitem l "name" = Ok name /\
                                name <> JStr "task") labels ->
  (forall task,
     Py.getitem task "name" = Ok (JStr "task") ->
     Github.is_enhancement (Github.task_flags (labels ++ task :: rest)%list)
     = Ok "y") /\
  (forall bad x,
     Py.getitem bad "name" = Raise x ->
     Github.is_enhancement (Github.task_flags (labels ++ bad :: rest)%list)
     = Raise x) /\
  Github.is_enhancement (Github.task_flags labels) = Ok "n".
Proof.
  induction 1 as [|l labels (name & Hn & Hne) _ IH].
  - split; [|split]; [| |reflexivity].
    + intros task Ht. simpl. now rewrite Ht.
    + intros bad x Hb. simpl. now rewrite Hb.
  - destruct IH as (IH1 & IH2 & IH3).
    assert (Hf : Py.eq_str name "task" = false).
    { destruct (Py.eq_str name "task") eqn:Et; [|reflexivity].
      apply eq_str_true in Et. contradiction. }
    split; [|split].
    + intros task Ht. simpl. rewrite Hn. simpl. rewrite Hf. now apply IH1.
    + intros bad x Hb. simpl. rewrite Hn. simpl. rewrite Hf. now apply IH2.
    + simpl. rewrite Hn. simpl. now rewrite Hf.
Qed.

Lemma github_feature_stops_at_first_task_witness :
  Github.is_enhancement
    (Github.task_flags
       ([Sample.label "bug"] ++ Sample.label "task" :: [JNum 5; JNull])%list)
  = Ok "y".
Proof.
  refine (proj1 (github_feature_stops_at_first_task
                   [Sample.label "bug"] [JNum 5; JNull] _)
            (Sample.label "task") _).
  - constructor; [|constructor].
    exists (JStr "bug"). split; [reflexivity | discriminate].
  - reflexivity.
Defined.

(** ** The source-definition parser: which error *)

Lemma foldM_parse_bit_raises_ValueError (bits : list string) :
  forall st x, foldM parse_bit bits st = Raise x -> x = ValueError.
Proof.
  induction bits as [|b bits IH]; simpl; intros st x H; [discriminate|].
  destruct (parse_bit st b) as [st'|x'] eqn:Eb; simpl in H.
  - eauto.
  - injection H as <-. eapply parse_bit_raises_ValueError; eauto.
Qed.

Lemma construct_raises_TypeError (cls : source_class) (args : list json)
  (kwargs : dict) (x : exn) :
  construct cls args kwargs = Raise x -> x = TypeError.
Proof.
  destruct cls; simpl.
  - unfold Github.init.
    destruct (Dict.has "self" kwargs); simpl; [intros H; now injection H|].
    destruct args as [|u [|r [|a l]]]; simpl.
    + destruct (Dict.get "user" kwargs), (Dict.get "repo" kwargs); simpl;
        intros H; try discriminate; now injection H.
    + destruct (Dict.has "user" kwargs); simpl; [intros H; now injection H|].
      destruct (Dict.get "repo" kwargs); simpl; intros H;
        try discriminate; now injection H.
    + destruct (Dict.has "user" kwargs || Dict.has "repo" kwargs); simpl;
        intros H; try discriminate; now injection H.
    + intros H; now injection H.
  - unfold Bugzilla.init.
    destruct (Dict.has "self" kwargs); simpl; [intros H; now injection H|].
    destruct args; simpl; intros H; try discriminate; now injection H.
Qed.

Lemma registered_tag (tag : string) :
  Dict.get tag SOURCE_TYPES
  = match Grammar.arity tag with
    | Some 2 => Some GithubClass
    | Some _ => Some BugzillaClass
    | None => None
    end.
Proof.
  unfold Grammar.arity, SOURCE_TYPES. cbn [Dict.get].
  rewrite (String.eqb_sym "github"), (String.eqb_sym "bugzilla").
  destruct (String.eqb tag "github"); [reflexivity|].
  now destruct (String.eqb tag "bugzilla").
Qed.

Lemma split_cons (c : ascii) (s : string) :
  exists first rest, Text.split c s = first :: rest.
Proof.
  pose proof (split_length c s) as H.
  destruct (Text.split c s) as [|first rest]; [discriminate | eauto].
Qed.

Lemma some_bit_two_equals (bits : list string) :
  forallb (fun b => Nat.leb (Text.count "=" b) 1) bits = false ->
  exists bit, In bit bits /\ 1 < Text.count "=" bit.
Proof.
  induction bits as [|b bits IH]; simpl; [discriminate|].
  destruct (Nat.leb_spec (Text.count "=" b) 1) as [Hle|Hlt]; simpl.
  - intros H. destruct (IH H) as (bit & Hin & Hc). eauto.
  - intros _. eauto.
Qed.

(** [parse_source] raises [KeyError] exactly when the type tag is not
    registered, [ValueError] exactly when the tag is registered and some
    later segment holds more than one [=], and otherwise only
    [TypeError], from the constructor call. *)
Theorem parse_source_errors (definition : string) :
  (parse_source definition = Raise KeyError <->
   Grammar.arity (Grammar.tag definition) = None) /\
  (parse_source definition = Raise ValueError <->
   Grammar.arity (Grammar.tag definition) <> None /\
   exists bit, In bit (Grammar.bits definition) /\ 1 < Text.count "=" bit) /\
  (forall x, parse_source definition = Raise x ->
             x = KeyError \/ x = ValueError \/ x = TypeError).
Proof.
  unfold parse_source, Grammar.tag, Grammar.bits.
  destruct (split_cons ":" definition) as (tag & bits & ->).
  cbn [hd tl]. rewrite registered_tag.
  destruct (Grammar.arity tag) as [n|] eqn:Ea.
  2:{ split; [tauto|]. split.
      - split; [discriminate | intros [H _]; contradiction].
      - intros x H. injection H as <-. auto. }
  set (cls := match n with 2 => GithubClass | _ => BugzillaClass end).
  assert (Hcls : match n with
                 | 2 => Some GithubClass
                 | _ => Some BugzillaClass
                 end = Some cls).
  { unfold cls. destruct n as [|[|[|n]]]; reflexivity. }
  rewrite Hcls. clear Hcls.
  assert (Hraise : forall x,
            (st <- foldM parse_bit bits ([], []) ;;
             construct cls (map JStr (fst st)) (kwargs_dict (snd st)))
            = Raise x ->
            (x = ValueError /\
             foldM parse_bit bits ([], []) = Raise ValueError) \/
            x = TypeError).
  { intros x H.
    destruct (foldM parse_bit bits ([], [])) as [st|x'] eqn:Ef; simpl in H.
    - right. eapply construct_raises_TypeError; eauto.
    - injection H as <-. left.
      rewrite (foldM_parse_bit_raises_ValueError _ _ _ Ef). auto. }
  split; [|split].
  - split; [|discriminate]. intros H.
    destruct (Hraise _ H) as [[Hx _]|Hx]; discriminate.
  - split.
    + intros H. split; [discriminate|].
      destruct (Hraise _ H) as [[_ Hf]|Hx]; [|discriminate].
      apply some_bit_two_equals.
      destruct (forallb _ bits) eqn:Eall; [|reflexivity].
      rewrite (foldM_parse_bit_valid _ Eall) in Hf. discriminate.
    + intros [_ (bit & Hin & Hc)].
      now rewrite (foldM_parse_bit_two_equals bits bit Hin Hc).
  - intros x H. destruct (Hraise _ H) as [[-> _]| ->]; auto.
Qed.

Lemma parse_source_errors_witness :
  parse_source "jira:status=NEW" = Raise KeyError.
Proof.
  apply (proj2 (proj1 (parse_source_errors "jira:status=NEW"))).
  reflexivity.
Defined.

(** With a registered tag and at most one [=] per segment, a wrong
    number of positional segments is a [TypeError]: any at all for
    bugzilla, more than two for github, and fewer than two for github
    unless [repo] (and [user]) are given as filters. *)
Theorem parse_source_arity_mismatch (definition : string) :
  forallb (fun b => Nat.leb (Text.count "=" b) 1) (Grammar.bits definition)
  = true ->
  (Grammar.tag definition = "bugzilla" /\
   Grammar.positional (Grammar.bits definition) <> []) \/
  (Grammar.tag definition = "github" /\
   2 < List.length (Grammar.positional (Grammar.bits definition))) \/
  (Grammar.tag definition = "github" /\
   List.length (Grammar.positional (Grammar.bits definition)) < 2 /\
   Grammar.values_of "repo" (Grammar.bits definition) = []) ->
  parse_source definition = Raise TypeError.
Proof.
  unfold parse_source, Grammar.tag, Grammar.bits.
  destruct (split_cons ":" definition) as (tag & bits & ->).
  cbn [hd tl]. intros Hone Hcase.
  rewrite (foldM_parse_bit_valid _ Hone). cbn [fst snd app].
  destruct Hcase as [[-> Hpos]|[[-> Hpos]|(-> & Hpos & Hrepo)]];
    cbn [Dict.get SOURCE_TYPES String.eqb Ascii.eqb Bool.eqb andb bind
         construct].
  - unfold Bugzilla.init.
    destruct (Dict.has "self" _); [reflexivity|].
    destruct (Grammar.positional bits); [contradiction | reflexivity].
  - unfold Github.init.
    destruct (Dict.has "self" _); [reflexivity|].
    destruct (Grammar.positional bits) as [|a [|b [|c l]]];
      simpl in Hpos; try lia. reflexivity.
  - unfold Github.init.
    destruct (Dict.has "self" _); [reflexivity|].
    pose proof (get_parsed_filters "repo" bits) as Hg.
    rewrite Hrepo in Hg.
    destruct (Grammar.positional bits) as [|a [|b l]];
      simpl in Hpos; try lia; cbn [fst snd map app].
    + rewrite Hg. now destruct (Dict.get "user" _).
    + rewrite Hg. now destruct (Dict.has "user" _).
Qed.

Lemma parse_source_arity_mismatch_witness :
  parse_source "github:acme:widgets:extra:state=open" = Raise TypeError.
Proof.
  apply (parse_source_arity_mismatch "github:acme:widgets:extra:state=open").
  - reflexivity.
  - right. left. split; [reflexivity | simpl; lia].
Defined.

(** ** The run on any number of sources *)

Lemma get_all_for_each (e : env) (fuel : nat) (s : source) :
  get_all e fuel s
  = for_each (normalize e s) (fst (get_issues e fuel s))
      (snd (get_issues e fuel s)).
Proof.
  destruct s as [g|b]; simpl.
  - unfold Github.get_all. now destruct (Github.get_issues e fuel g).
  - unfold Bugzilla.get_all. now destruct (Bugzilla.get_issues e b).
Qed.







Lemma mapM_raise_In {A B : Type} (f : A -> result B) (l : list A) (x : exn) :
  mapM f l = Raise x -> exists a, In a l /\ f a = Raise x.
Proof.
  induction l as [|a l IH]; simpl; [discriminate|].
  destruct (f a) as [b|x'] eqn:Ea; simpl.
  - destruct (mapM f l) as [bs|x'']; simpl; [discriminate|].
    intros H. injection H as ->. destruct (IH eq_refl) as (a' & Hin & Ha').
    eauto.
  - intros H. injection H as ->. eauto.
Qed.

Lemma mapM_In_raise {A B : Type} (f : A -> result B) (l : list A) (a : A)
  (x : exn) :
  In a l -> f a = Raise x -> exists x', mapM f l = Raise x'.
Proof.
  induction l as [|b l IH]; simpl; intros Hin Ha; [destruct Hin|].
  destruct (f b) as [y|x'] eqn:Eb; simpl; [|eauto].
  destruct Hin as [->|Hin]; [congruence|].
  destruct (IH Hin Ha) as (x'' & ->). simpl. eauto.
Qed.

(** The definitions are all parsed before anything is written or
    fetched: if any of them is rejected, the run writes nothing, not
    even the header, and raises the error of a rejected definition. *)
Theorem main_bad_definition_writes_nothing (e : env) (fuel : nat)
  (argv_sources : list string) (bad : string) (x : exn) :
  In bad argv_sources ->
  parse_source bad = Raise x ->
  exists x' bad',
    main e fuel argv_sources = ([], Raised x') /\
    In bad' argv_sources /\ parse_source bad' = Raise x'.
Proof.
  intros Hin Hbad.
  destruct (mapM_In_raise _ _ _ _ Hin Hbad) as (x' & Hm).
  destruct (mapM_raise_In _ _ _ Hm) as (bad' & Hin' & Hbad').
  exists x', bad'. unfold main. rewrite Hm. auto.
Qed.

Lemma main_bad_definition_writes_nothing_witness :
  exists x' bad',
    main Sample.world 5 ["github:acme:widgets"; "bugzilla:status=a=b"]
    = ([], Raised x') /\
    In bad' ["github:acme:widgets"; "bugzilla:status=a=b"] /\
    parse_source bad' = Raise x'.
Proof.
  apply (main_bad_definition_writes_nothing Sample.world 5
           ["github:acme:widgets"; "bugzilla:status=a=b"]
           "bugzilla:status=a=b" ValueError).
  - right. left. reflexivity.
  - reflexivity.
Defined.

(** ** Sources stream their records *)

Lemma for_each_prefix {A B : Type} (f : A -> result B) (l : list A)
  (o o' : outcome) (r : list B) :
  for_each f l o = (r, o') ->
  exists n,
    mapM f (firstn n l) = Ok r /\
    ((n = List.length l /\ o' = o) \/
     (exists a x, nth_error l n = Some a /\ f a = Raise x /\ o' = Raised x)).
Proof.
  revert r; induction l as [|a l IH]; simpl; intros r H.
  - injection H as <- <-. exists 0. split; [reflexivity | auto].
  - destruct (f a) as [b|x] eqn:Ea.
    + destruct (for_each f l o) as [ys o1]. injection H as <- <-.
      destruct (IH ys eq_refl) as (n & Hm & Hend). exists (S n). split.
      * simpl. now rewrite Ea, Hm.
      * destruct Hend as [[-> ->]|(a' & x & Hnth & Ha' & ->)]; [auto|].
        right. exists a', x. auto.
    + injection H as <- <-. exists 0. split; [reflexivity|].
      right. exists a, x. auto.
Qed.

(** [get_all] normalizes the raw issues one by one as they arrive: it
    yields the records of the issues before the first one that fails to
    normalize and then raises that issue's error; when none fails it
    yields one record per raw issue and ends as the fetch ended. *)
Theorem get_all_yields_normalized_prefix (e : env) (fuel : nat) (s : source)
  (recs : list dict) (o' : outcome) :
  get_all e fuel s = (recs, o') ->
  exists n,
    mapM (normalize e s) (firstn n (fst (get_issues e fuel s))) = Ok recs /\
    List.length recs = Nat.min n (List.length (fst (get_issues e fuel s))) /\
    ((n = List.length (fst (get_issues e fuel s)) /\
      o' = snd (get_issues e fuel s)) \/
     (exists raw x,
        nth_error (fst (get_issues e fuel s)) n = Some raw /\
        normalize e s raw = Raise x /\ o' = Raised x)).
Proof.
  rewrite get_all_for_each. intros H.
  destruct (for_each_prefix _ _ _ _ _ H) as (n & Hm & Hend).
  exists n. split; [exact Hm|]. split; [|exact Hend].
  rewrite (mapM_ok_length _ _ _ Hm). apply length_firstn.
Qed.

Lemma get_all_yields_normalized_prefix_witness :
  exists n,
    mapM (normalize Sample.world (SGithub Sample.widgets))
      (firstn n (fst (get_issues Sample.world 2 (SGithub Sample.widgets))))
    = Ok sample_github_records /\
    List.length sample_github_records
    = Nat.min n (List.length
                   (fst (get_issues Sample.world 2 (SGithub Sample.widgets)))) /\
    ((n = List.length
            (fst (get_issues Sample.world 2 (SGithub Sample.widgets))) /\
      Done = snd (get_issues Sample.world 2 (SGithub Sample.widgets))) \/
     (exists raw x,
        nth_error (fst (get_issues Sample.world 2 (SGithub Sample.widgets))) n
        = Some raw /\
        normalize Sample.world (SGithub Sample.widgets) raw = Raise x /\
        Done = Raised x)).
Proof.
  apply (get_all_yields_normalized_prefix Sample.world 2
           (SGithub Sample.widgets)).
  reflexivity.
Defined.

(** ** From the definition to the query *)

Lemma params_kwargs_dict (e : env) (kwargs : kwargs_t) :
  Urllib.params e (kwargs_dict kwargs) = kwargs_params kwargs.
Proof.
  unfold Urllib.params, kwargs_dict, kwargs_params.
  induction kwargs as [|[k vals] kw IH]; simpl; [reflexivity|].
  rewrite IH, map_map. reflexivity.
Qed.

Lemma keys_set_NoDup {V : Type} (k : string) (v : V) (d : list (string * V)) :
  NoDup (Dict.keys d) -> NoDup (Dict.keys (Dict.set k v d)).
Proof.
  unfold Dict.keys. induction d as [|[k1 v1] d IH]; simpl; intros Hnd.
  - constructor; [intros [] | constructor].
  - inversion Hnd as [|? ? Hnot Hnd']; subst.
    destruct (String.eqb_spec k1 k) as [->|Hne]; simpl.
    + now constructor.
    + constructor; [|auto]. intros Hin.
      apply (keys_set k1 k v d) in Hin. destruct Hin; [congruence|].
      contradiction.
Qed.

Lemma file_assignments_NoDup (assigns : list (string * string)) :
  forall kwargs, NoDup (Dict.keys kwargs) ->
                 NoDup (Dict.keys (file_assignments assigns kwargs)).
Proof.
  unfold file_assignments.
  induction assigns as [|[k v] rest IH]; simpl; intros kw Hnd; [exact Hnd|].
  apply IH. unfold append_value. now apply keys_set_NoDup.
Qed.

Lemma query_values_none (key : string) (kwargs : kwargs_t) :
  ~ In key (Dict.keys kwargs) ->
  query_values key (kwargs_params kwargs) = [].
Proof.
  unfold query_values, kwargs_params.
  induction kwargs as [|[k vals] kw IH]; simpl; intros Hnot; [reflexivity|].
  rewrite filter_app, map_app, IH by tauto. rewrite app_nil_r.
  assert (Hne : String.eqb k key = false)
    by (apply String.eqb_neq; tauto).
  clear - Hne. induction vals as [|v vals IHv]; simpl; [reflexivity|].
  now rewrite Hne.
Qed.

Lemma query_values_lookup (key : string) (kwargs : kwargs_t) :
  NoDup (Dict.keys kwargs) ->
  query_values key (kwargs_params kwargs)
  = match Dict.get key kwargs with
    | Some vals => vals
    | None => []
    end.
Proof.
  induction kwargs as [|[k vals] kw IH]; simpl; intros Hnd; [reflexivity|].
  inversion Hnd as [|? ? Hnot Hnd']; subst.
  change (kwargs_params ((k, vals) :: kw))
    with (map (pair k) vals ++ kwargs_params kw)%list.
  unfold query_values in *. rewrite filter_app, map_app.
  destruct (String.eqb_spec k key) as [->|Hne].
  - fold (query_values key (kwargs_params kw)).
    rewrite (query_values_none key kw Hnot), app_nil_r.
    clear. induction vals as [|v vals IHv]; simpl; [reflexivity|].
    rewrite String.eqb_refl. simpl. now rewrite IHv.
  - rewrite (IH Hnd'). apply String.eqb_neq in Hne.
    assert (Hnil : map snd (filter (fun p => String.eqb (fst p) key)
                             (map (pair k) vals)) = []).
    { clear - Hne. induction vals as [|v vals IHv]; simpl; [reflexivity|].
      now rewrite Hne. }
    now rewrite Hnil.
Qed.

Lemma kwargs_params_set_length (key val : string) (kwargs : kwargs_t) :
  List.length (kwargs_params (append_value key val kwargs))
  = S (List.length (kwargs_params kwargs)).
Proof.
  unfold append_value, kwargs_params.
  induction kwargs as [|[k vals] kw IH]; simpl; [reflexivity|].
  destruct (String.eqb k key) eqn:Ek; simpl.
  - rewrite !length_app, !length_map, length_app. simpl. lia.
  - rewrite !length_app, IH. lia.
Qed.

Lemma file_assignments_length (assigns : list (string * string)) :
  forall kwargs,
    List.length (kwargs_params (file_assignments assigns kwargs))
    = List.length assigns + List.length (kwargs_params kwargs).
Proof.
  unfold file_assignments.
  induction assigns as [|[k v] rest IH]; simpl; intros kw; [reflexivity|].
  rewrite IH, kwargs_params_set_length. lia.
Qed.

Lemma parse_source_valid_filters (definition : string) :
  Grammar.valid definition = true ->
  exists src,
    parse_source definition = Ok src /\
    source_filters src
    = kwargs_dict (file_assignments
                     (Grammar.assignments (Grammar.bits definition)) []).
Proof.
  unfold Grammar.valid, Grammar.tag, Grammar.bits, parse_source.
  destruct (split_cons ":" definition) as (tag & bits & ->). cbn [hd tl].
  rewrite registered_tag.
  unfold Grammar.arity, Grammar.parameter_names.
  destruct (String.eqb tag "github") eqn:Eg.
  - intros Hv. apply andb_true_iff in Hv. destruct Hv as [Hv Hnames].
    apply andb_true_iff in Hv. destruct Hv as [Hn Hone].
    apply Nat.eqb_eq in Hn.
    rewrite (foldM_parse_bit_valid _ Hone). cbn [bind fst snd app construct].
    destruct (Grammar.positional bits) as [|a [|b [|c l]]]; try discriminate.
    unfold Github.init. cbn [map].
    rewrite (has_parsed_parameter _ "self" _ Hnames) by (simpl; auto).
    rewrite (has_parsed_parameter _ "user" _ Hnames) by (simpl; auto).
    rewrite (has_parsed_parameter _ "repo" _ Hnames) by (simpl; auto).
    simpl. eauto.
  - destruct (String.eqb tag "bugzilla") eqn:Eb; [|discriminate].
    intros Hv. apply andb_true_iff in Hv. destruct Hv as [Hv Hnames].
    apply andb_true_iff in Hv. destruct Hv as [Hn Hone].
    apply Nat.eqb_eq in Hn.
    rewrite (foldM_parse_bit_valid _ Hone). cbn [bind fst snd app construct].
    destruct (Grammar.positional bits) as [|a l]; try discriminate.
    unfold Bugzilla.init. cbn [map].
    rewrite (has_parsed_parameter _ "self" _ Hnames) by (simpl; auto).
    simpl. eauto.
Qed.

(** The filters of a valid definition reach the query unchanged: the
    query built from the parsed source has one parameter per
    [key=val] segment, and for every key its values in the order of
    their segments. *)
Theorem query_matches_definition (e : env) (definition : string) :
  Grammar.valid definition = true ->
  exists src,
    parse_source definition = Ok src /\
    List.length (Urllib.params e (source_filters src))
    = List.length (Grammar.assignments (Grammar.bits definition)) /\
    forall key,
      query_values key (Urllib.params e (source_filters src))
      = Grammar.values_of key (Grammar.bits definition).
Proof.
  intros Hv. destruct (parse_source_valid_filters _ Hv) as (src & Hp & Hf).
  exists src. split; [exact Hp|]. rewrite Hf, params_kwargs_dict. split.
  - rewrite file_assignments_length. simpl. lia.
  - intros key. rewrite query_values_lookup
      by (apply file_assignments_NoDup; constructor).
    rewrite get_file_assignments. simpl. unfold Grammar.values_of.
    now destruct (map snd (filter _ _)).
Qed.

Lemma query_matches_definition_witness :
  exists src,
    parse_source "bugzilla:status=NEW:product=Firefox:status=ASSIGNED" = Ok src /\
    List.length (Urllib.params Sample.world (source_filters src))
    = List.length
        (Grammar.assignments
           (Grammar.bits "bugzilla:status=NEW:product=Firefox:status=ASSIGNED")) /\
    forall key,
      query_values key (Urllib.params Sample.world (source_filters src))
      = Grammar.values_of key
          (Grammar.bits "bugzilla:status=NEW:product=Firefox:status=ASSIGNED").
Proof.
  apply (query_matches_definition Sample.world
           "bugzilla:status=NEW:product=Firefox:status=ASSIGNED").
  reflexivity.
Defined.

(** ** Raw issues that lack a key *)

Lemma normalize_reads_required (e : env) (s : source) (raw : json)
  (rec : dict) (key : string) :
  normalize e s raw = Ok rec ->
  In key (required_keys s) ->
  exists v, Py.getitem raw key = Ok v.
Proof.
  destruct s as [g|b]; simpl; intros H Hin.
  - unfold Github.normalize in H. invert_binds H.
    repeat (destruct Hin as [<-|Hin]; [eauto|]). destruct Hin.
  - unfold Bugzilla.normalize in H. invert_binds H.
    repeat (destruct Hin as [<-|Hin]; [eauto|]). destruct Hin.
Qed.

(** No key has a default: a raw issue from which one of the keys the
    source reads cannot be read (it is absent, or the issue is not an
    object) yields no record but an error; when it is the first key the
    source reads, the error is the one of that lookup. *)
Theorem missing_key_is_fatal (e : env) (s : source) (raw : json)
  (key : string) (x : exn) :
  In key (required_keys s) ->
  Py.getitem raw key = Raise x ->
  (exists x', normalize e s raw = Raise x') /\
  (key = hd EmptyString (required_keys s) -> normalize e s raw = Raise x).
Proof.
  intros Hin Hx. split.
  - destruct (normalize e s raw) as [rec|x'] eqn:En; [|eauto].
    destruct (normalize_reads_required e s raw rec key En Hin) as (v & Hv).
    congruence.
  - intros ->. destruct s as [g|b]; simpl in *.
    + unfold Github.normalize. now rewrite Hx.
    + unfold Bugzilla.normalize. now rewrite Hx.
Qed.

Lemma missing_key_is_fatal_witness :
  (exists x',
     normalize Sample.world (SGithub Sample.widgets)
       Sample.issue_without_pull_request = Raise x') /\
  ("pull_request" = hd EmptyString (required_keys (SGithub Sample.widgets)) ->
   normalize Sample.world (SGithub Sample.widgets)
     Sample.issue_without_pull_request = Raise KeyError).
Proof.
  apply (missing_key_is_fatal Sample.world (SGithub Sample.widgets)
           Sample.issue_without_pull_request "pull_request" KeyError).
  - simpl. tauto.
  - reflexivity.
Defined.

(** ** A source that raises ends the run *)




(** ** Pagination: failures on the way *)

(** A failure to open a later page loses nothing: the issues of the
    page that linked to it have been yielded when the error is
    raised. *)
Theorem github_next_page_failure (e : env) (p : page_spec)
  (entries : list (string * string)) (next : string) (x : exn) :
  serves e p ->
  page_links p = Some entries ->
  LinkHeader.points_to entries next ->
  next <> EmptyString ->
  urlopen e next = Raise x ->
  forall fuel,
    Github.fetch_pages e (S (S fuel)) (page_url p)
    = (page_issues p, Raised x).
Proof.
  intros (Hurl & Hopen & Hwf) Hlinks Hp Hnext Hfail fuel.
  rewrite Hlinks in Hwf. destruct Hwf as [Hne Hwf].
  rewrite (fetch_pages_step e (S fuel) _ _ (JList (page_issues p))
             (page_issues p) Hurl Hopen eq_refl eq_refl).
  unfold page_response. cbn [link_header]. rewrite Hlinks.
  cbn [option_map]. rewrite (next_url_points_to _ _ Hne Hwf Hp).
  simpl. apply String.eqb_neq in Hnext. rewrite Hnext, Hfail.
  now rewrite app_nil_r.
Qed.

Lemma github_next_page_failure_witness :
  Github.fetch_pages flaky_world 2 (page_url sample_first_page)
  = (page_issues sample_first_page, Raised URLError).
Proof.
  refine (github_next_page_failure flaky_world sample_first_page
            [(Sample.second_page_url, "next")] Sample.second_page_url
            URLError _ _ _ _ _ 0).
  - repeat split; try reflexivity; discriminate.
  - reflexivity.
  - split; [left; reflexivity|]. intros url' [H|[]]. now injection H.
  - discriminate.
  - reflexivity.
Defined.

(** When the server answers the first request with a JSON object
    instead of a list (an error message, say), the loop iterates over
    the object's keys: [get_issues] yields texts, and [get_all] raises
    [TypeError] on the first of them without yielding a record. *)
Theorem github_object_body_raises (e : env) (self : Github.t) (url : string)
  (resp : response) (kvs : list (string * json)) (fuel : nat) :
  Github.first_url e self = Ok url ->
  url <> EmptyString ->
  urlopen e url = Ok resp ->
  body resp = Some (JObj kvs) ->
  kvs <> [] ->
  (exists more,
     fst (Github.get_issues e (S fuel) self)
     = (map JStr (Dict.keys kvs) ++ more)%list) /\
  Github.get_all e (S fuel) self = ([], Raised TypeError).
Proof.
  intros Hfirst Hurl Hopen Hbody Hne.
  assert (Hi : exists more o,
             Github.get_issues e (S fuel) self
             = ((map JStr (Dict.keys kvs) ++ more)%list, o)).
  { unfold Github.get_issues. rewrite Hfirst.
    rewrite (fetch_pages_step e fuel url resp (JObj kvs)
               (map JStr (Dict.keys kvs)) Hurl Hopen Hbody eq_refl).
    destruct (Github.next_url (link_header resp)) as [url'|x'].
    - destruct (Github.fetch_pages e fuel url') as [more o]. eauto.
    - exists [], (Raised x'). now rewrite app_nil_r. }
  destruct Hi as (more & o & Hi). split.
  - exists more. now rewrite Hi.
  - unfold Github.get_all. rewrite Hi.
    destruct kvs as [|[k v] kvs]; [contradiction|]. reflexivity.
Qed.

Lemma github_object_body_raises_witness :
  (exists more,
     fst (Github.get_issues refusing_world 1 Sample.widgets)
     = (map JStr (Dict.keys error_object) ++ more)%list) /\
  Github.get_all refusing_world 1 Sample.widgets = ([], Raised TypeError).
Proof.
  apply (github_object_body_raises refusing_world Sample.widgets
           Sample.first_page_url
           {| body := Some (JObj error_object); link_header := None |}
           error_object 0).
  - reflexivity.
  - discriminate.
  - reflexivity.
  - reflexivity.
  - discriminate.
Defined.

(** Every record a github source yields has the repository name, a
    text, as both its [product] and its [module]. *)
Theorem github_product_and_module_are_repo (e : env) (fuel : nat)
  (self : Github.t) (recs : list dict) (o : outcome) (rec : dict) :
  Github.get_all e fuel self = (recs, o) ->
  In rec recs ->
  exists repo,
    Github.repo self = JStr repo /\
    Dict.get "product" rec = Some (JStr repo) /\
    Dict.get "module" rec = Some (JStr repo).
Proof.
  unfold Github.get_all. intros H Hin.
  destruct (Github.get_issues e fuel self) as [issues o1] eqn:Ei.
  destruct (for_each_In _ _ _ _ _ _ H Hin) as (raw & Hraw & Hn).
  assert (Hrepo : is_text_or_integer (Github.repo self) = true).
  { apply (github_yields_repo_text e fuel self raw). now rewrite Ei. }
  assert (Hfirst : exists url, Github.first_url e self = Ok url).
  { unfold Github.get_issues in Ei.
    destruct (Github.first_url e self) as [url|x]; [eauto|].
    injection Ei as <- _. destruct Hraw. }
  destruct Hfirst as (url & Hfirst).
  unfold Github.first_url, Py.join in Hfirst. cbn [mapM bind] in Hfirst.
  destruct (Github.user self); try discriminate.
  destruct (Github.repo self) as [| | |repo| |] eqn:Er; try discriminate.
  exists repo. split; [reflexivity|].
  unfold Github.normalize in Hn. rewrite Er in Hn.
  invert_binds Hn. injection Hn as <-. split; reflexivity.
Qed.

Lemma github_product_and_module_are_repo_witness :
  exists repo,
    Github.repo Sample.widgets = JStr repo /\
    Dict.get "product" (hd [] sample_github_records) = Some (JStr repo) /\
    Dict.get "module" (hd [] sample_github_records) = Some (JStr repo).
Proof.
  apply (github_product_and_module_are_repo Sample.world 2 Sample.widgets
           sample_github_records Done).
  - reflexivity.
  - left. reflexivity.
Defined.
